(** * StateMonitor: notifications on changes of charge-controller state

    A shallow embedding of [plugins/state_monitor.py]: the [StateMonitor]
    pipeline step, its [execute] method with the three transition rules
    (power drop, sensor communication, LED state), [send_message],
    [construct_message] and [SlackSender.send].

    Python objects are modelled as follows.
    - A payload ([DataValue.value]) is a [pyval]: [None], a [bool], an
      unbounded [int] or a binary64 [float] (Stdlib's [spec_float] with
      precision 53 and maximal exponent 1024).
    - A sample ([input_data]) is a [gmap] from field names to [DataValue];
      the argument of [execute] is an [option], [None] being Python's [None].
    - Exceptions, log records, HTTP requests and the replies of the network
      are explicit: a computation maps the number of requests made so far to
      an outcome, the effects it emitted (in order) and the new count.
    - The strings that are logged and sent are kept as terms ([text]).
    - A sample is a value: the step keeps a reference to the mapping it was
      given and never mutates it, and the pipeline hands over a new mapping
      on every pass.

    Taken from the surroundings: the unit identity read by
    [construct_message] and the reply of the network to each request (a
    final status, or no answer); [urlopen] returns the responses with a
    status within 200..299 and raises for the rest, as the library does.  The calls of the logger
    return, and only exceptions derived from [Exception] occur. *)

From Stdlib Require Import ZArith Bool List Lia.
From Stdlib Require Import DecimalString.
From Stdlib Require DecimalPos DecimalZ.
From Stdlib Require Import SpecFloat.
From stdpp Require Import base option strings gmap.
Import ListNotations.

Local Open Scope string_scope.
Local Open Scope list_scope.
Local Open Scope Z_scope.

(** ** Python values and exceptions *)

Inductive pyval :=
| VNone
| VBool (b : bool)
| VInt (z : Z)
| VFloat (f : spec_float).

(** The strings that the step builds, kept as terms: the values that an
    f-string interpolates are recorded, their digits are not rendered. *)
Inductive text :=
| PowerHasDropped (power_pre power_now : pyval)
    (* f"Power has dropped from {power_pre:.2f} to {power_now:.2f}." *)
| NoCommunication
    (* "No communication with sensor!" *)
| CriticalFailure (state_now : pyval)
    (* f"Critical failure with charge controller. LED state: {state_now}." *)
| MessageFromSensor (sensor_name : string) (msg : text)
    (* '\n'.join([f"Message from sensor {sensor_name}", msg]) *)
| SendingFailed (msg : text).
    (* f"Sending to slack failed. Message: {msg}" *)

(** The exception classes that the modelled code can meet. *)
Inductive exn :=
| KeyError (key : string)
| TypeError
| OverflowError
| AttributeError
| URLError
| HTTPError (code : Z)
| RuntimeWarning (warning_msg : text).

Inductive outcome (A : Type) :=
| Return (a : A)
| Raise (e : exn).
Arguments Return {A} a.
Arguments Raise {A} e.

Definition bind_outcome {A B} (o : outcome A) (k : A -> outcome B) : outcome B :=
  match o with
  | Return a => k a
  | Raise e => Raise e
  end.

(** *** Numbers *)

Definition float_prec : Z := 53.
Definition float_emax : Z := 1024.

(** [bool] is a subclass of [int]. *)
Definition int_of_bool (b : bool) : Z := if b then 1 else 0.

(** [float(z)]: round to nearest even; [OverflowError] ("int too large to
    convert to float") beyond the binary64 range. *)
Definition float_of_int (z : Z) : outcome spec_float :=
  match binary_normalize float_prec float_emax z 0 false with
  | S754_infinity _ => Raise OverflowError
  | f => Return f
  end.

(** Comparison of an [int] with a [float] is exact in Python: the float is
    not rounded, the two are compared as real numbers. *)
Definition compare_int_float (z : Z) (f : spec_float) : option comparison :=
  match f with
  | S754_nan => None
  | S754_infinity s => Some (if s then Gt else Lt)
  | S754_zero _ => Some (z ?= 0)
  | S754_finite s m e =>
      let v := if s then Z.neg m else Z.pos m in
      if 0 <=? e then Some (z ?= v * 2 ^ e) else Some (z * 2 ^ (- e) ?= v)
  end.

Definition opp_comparison (c : option comparison) : option comparison :=
  match c with
  | Some c => Some (CompOpp c)
  | None => None
  end.

(** The three-way comparison behind the rich comparisons of numbers;
    [None] is "unordered" (a NaN is involved), [TypeError] when an operand
    is not a number. *)
Definition py_compare (a b : pyval) : outcome (option comparison) :=
  match a, b with
  | VNone, _ | _, VNone => Raise TypeError
  | VFloat f, VFloat g => Return (SFcompare f g)
  | VFloat f, VInt z => Return (opp_comparison (compare_int_float z f))
  | VFloat f, VBool c => Return (opp_comparison (compare_int_float (int_of_bool c) f))
  | VInt z, VFloat g => Return (compare_int_float z g)
  | VBool c, VFloat g => Return (compare_int_float (int_of_bool c) g)
  | VInt z, VInt y => Return (Some (z ?= y))
  | VInt z, VBool c => Return (Some (z ?= int_of_bool c))
  | VBool c, VInt y => Return (Some (int_of_bool c ?= y))
  | VBool c, VBool d => Return (Some (int_of_bool c ?= int_of_bool d))
  end.

Definition is_lt (c : option comparison) : bool :=
  match c with Some Lt => true | _ => false end.
Definition is_gt (c : option comparison) : bool :=
  match c with Some Gt => true | _ => false end.
Definition is_eq (c : option comparison) : bool :=
  match c with Some Eq => true | _ => false end.

(** [a < b], [a > b], [a >= b]. *)
Definition py_lt (a b : pyval) : outcome bool :=
  bind_outcome (py_compare a b) (fun c => Return (is_lt c)).
Definition py_gt (a b : pyval) : outcome bool :=
  bind_outcome (py_compare a b) (fun c => Return (is_gt c)).
Definition py_ge (a b : pyval) : outcome bool :=
  bind_outcome (py_compare a b) (fun c => Return (is_gt c || is_eq c)).

(** [a == b] and [a != b] never raise: [None] equals only [None]. *)
Definition py_eq (a b : pyval) : bool :=
  match a, b with
  | VNone, VNone => true
  | _, _ =>
      match py_compare a b with
      | Return c => is_eq c
      | Raise _ => false
      end
  end.
Definition py_ne (a b : pyval) : bool := negb (py_eq a b).

(** [a * b]. *)
Definition py_mul (a b : pyval) : outcome pyval :=
  match a, b with
  | VNone, _ | _, VNone => Raise TypeError
  | VFloat f, VFloat g => Return (VFloat (SFmul float_prec float_emax f g))
  | VFloat f, VInt z =>
      bind_outcome (float_of_int z)
        (fun g => Return (VFloat (SFmul float_prec float_emax f g)))
  | VFloat f, VBool c =>
      bind_outcome (float_of_int (int_of_bool c))
        (fun g => Return (VFloat (SFmul float_prec float_emax f g)))
  | VInt z, VFloat g =>
      bind_outcome (float_of_int z)
        (fun f => Return (VFloat (SFmul float_prec float_emax f g)))
  | VBool c, VFloat g =>
      bind_outcome (float_of_int (int_of_bool c))
        (fun f => Return (VFloat (SFmul float_prec float_emax f g)))
  | VInt z, VInt y => Return (VInt (z * y))
  | VInt z, VBool c => Return (VInt (z * int_of_bool c))
  | VBool c, VInt y => Return (VInt (int_of_bool c * y))
  | VBool c, VBool d => Return (VInt (int_of_bool c * int_of_bool d))
  end.

(** Truth value, as tested by [if], [and] and [not]. *)
Definition truthy (v : pyval) : bool :=
  match v with
  | VNone => false
  | VBool b => b
  | VInt z => negb (z =? 0)
  | VFloat (S754_zero _) => false
  | VFloat _ => true
  end.

(** The replacement field [{v:.2f}] of an f-string.  The digits are not
    modelled, only whether formatting succeeds: an [int] is converted to a
    [float] first, [None] does not accept the format. *)
Definition format_2f (v : pyval) : outcome unit :=
  match v with
  | VNone => Raise TypeError
  | VBool c => bind_outcome (float_of_int (int_of_bool c)) (fun _ => Return tt)
  | VInt z => bind_outcome (float_of_int z) (fun _ => Return tt)
  | VFloat _ => Return tt
  end.

(** [{n:02d}]: decimal digits, padded with a zero to two characters. *)
Definition format_02d (n : Z) : string :=
  let digits := NilZero.string_of_int (Z.to_int n) in
  if (String.length digits <? 2)%nat then String.append "0" digits else digits.

(** ** Samples, log records and effects *)

(** Only [.value] of a [DataValue] is read. *)
Record DataValue := { value : pyval }.

Abbreviation sample := (gmap string DataValue).

Inductive record :=
| Info (msg : text)                              (* logger.info(msg) *)
| Warning (msg : text)                           (* logger.warning(warning_msg) *)
| Error_evaluating (e : exn)                     (* logger.error("%s evaluating in %s on step %s: %s", ...) *)
| Info_error_details                             (* logger.info("Error details:", exc_info=True) *)
| Info_data (pretty_name : string) (data : sample). (* logger.info("%s data: %r", pretty_name, {...}) *)

Inductive effect :=
| Log (r : record)
| Urlopen (data : text).                         (* urllib.request.urlopen(self.request) *)

(** What the network does with one request: the server answers with a
    final status (redirections followed), or no answer comes. *)
Inductive reply :=
| Response (status : Z)
| Unreachable.

(** The surroundings of the step: the unit identity read by
    [construct_message] and the reply of the network to the n-th request. *)
Record environment := {
  METADATA_name : string;
  UNIT_CONFIG_number : Z;
  network : nat -> reply
}.

(** ** Computations: exceptions, emitted effects, request counter *)

Record run (A : Type) := {
  result : outcome A;
  emitted : list effect;
  requests : nat
}.
Arguments result {A} r.
Arguments emitted {A} r.
Arguments requests {A} r.

Definition M (A : Type) : Type := nat -> run A.

Definition ret {A} (a : A) : M A :=
  fun n => {| result := Return a; emitted := []; requests := n |}.

Definition raise {A} (e : exn) : M A :=
  fun n => {| result := Raise e; emitted := []; requests := n |}.

Definition bind {A B} (m : M A) (k : A -> M B) : M B :=
  fun n =>
    let r := m n in
    match result r with
    | Return a =>
        let r' := k a (requests r) in
        {| result := result r';
           emitted := emitted r ++ emitted r';
           requests := requests r' |}
    | Raise e =>
        {| result := Raise e; emitted := emitted r; requests := requests r |}
    end.

(** [try: body except Exception as e: handler e]. *)
Definition try_except {A} (body : M A) (handler : exn -> M A) : M A :=
  fun n =>
    let r := body n in
    match result r with
    | Return a => r
    | Raise e =>
        let r' := handler e (requests r) in
        {| result := result r';
           emitted := emitted r ++ emitted r';
           requests := requests r' |}
    end.

Definition lift {A} (o : outcome A) : M A :=
  match o with
  | Return a => ret a
  | Raise e => raise e
  end.

Definition log (r : record) : M unit :=
  fun n => {| result := Return tt; emitted := [Log r]; requests := n |}.

Notation "'do' x <- m ; k" := (bind m (fun x => k))
  (at level 10, x pattern, m at level 100, k at level 200).

Fixpoint for_each {A} (l : list A) (body : A -> M unit) : M unit :=
  match l with
  | [] => ret tt
  | a :: l => do _ <- body a; for_each l body
  end.

(** ** The classes of the plugin *)

(** [logger] is the truth value of [self.logger] (a [logging.Logger], or
    [False] to have failures raised); [request_url] is the webhook that
    [__init__] resolved. *)
Record SlackSender := {
  logger : bool;
  request_url : string
}.

(** [sender] is [None] unless [method == 'slack'] and the sender could be
    built; [_previous_data] is [None] until the first pass. *)
Record StateMonitor := {
  power_delim : pyval;
  sender : option SlackSender;
  _previous_data : option sample
}.

(** [StateMonitor.__init__]: the delimiter as configured, the sender that
    could be built (if any), no previous data. *)
Definition StateMonitor_init (power_delim : pyval) (sender : option SlackSender) : StateMonitor :=
  {| power_delim := power_delim; sender := sender; _previous_data := None |}.

(** The default [power_delim=1]. *)
Definition default_power_delim : pyval := VInt 1.

Definition set_previous_data (self : StateMonitor) (data : option sample) : StateMonitor :=
  {| power_delim := power_delim self; sender := sender self; _previous_data := data |}.

Section Plugin.

Variable env : environment.

(** [urllib.request.urlopen]: one request.  The response is returned when
    its status is within 200..299; any other status is raised as an
    [HTTPError] (the library's [HTTPErrorProcessor]), and a request without
    answer as a [URLError]. *)
Definition urlopen (data : text) : M Z :=
  fun n =>
    {| result := match network env n with
                 | Response status =>
                     if (200 <=? status) && (status <? 300) then Return status
                     else Raise (HTTPError status)
                 | Unreachable => Raise URLError
                 end;
       emitted := [Urlopen data];
       requests := S n |}.

(** [SlackSender.send]. *)
Definition send (self : SlackSender) (msg : text) : M unit :=
  do status <- urlopen msg;
  if negb (status =? 200) then
    let warning_msg := SendingFailed msg in
    if logger self then log (Warning warning_msg)
    else raise (RuntimeWarning warning_msg)
  else ret tt.

(** [StateMonitor.construct_message]. *)
Definition construct_message (msg : text) : text :=
  let sensor_name := String.append (METADATA_name env) (format_02d (UNIT_CONFIG_number env)) in
  MessageFromSensor sensor_name msg.

(** [StateMonitor.send_message]. *)
Definition send_message (self : StateMonitor) (msg : text) : M unit :=
  let msg := construct_message msg in
  match sender self with
  | Some s => send s msg
  | None => ret tt
  end.

(** [data[key].value]: [None] is not subscriptable, a missing key is a
    [KeyError]. *)
Definition subscript_value (data : option sample) (key : string) : outcome pyval :=
  match data with
  | None => Raise TypeError
  | Some d =>
      match d !! key with
      | Some v => Return (value v)
      | None => Raise (KeyError key)
      end
  end.

(** The helper [now_then] of [execute]: current and previous value of one
    attribute. *)
Definition now_then (self : StateMonitor) (input_data : option sample) (key : string)
  : M (pyval * pyval) :=
  do now <- lift (subscript_value input_data key);
  do pre <- lift (subscript_value (_previous_data self) key);
  ret (now, pre).

(** The body of the [try] statement, block by block. *)

(** "Power drops" *)
Definition power_drops (self : StateMonitor) (input_data : option sample) : M unit :=
  do (load_now, load_pre) <- now_then self input_data "adc_vl_f";
  do (curr_now, curr_pre) <- now_then self input_data "adc_il_f";
  do power_now <- lift (py_mul load_now curr_now);
  do power_pre <- lift (py_mul load_pre curr_pre);
  do below <- lift (py_lt power_now (power_delim self));
  do crossed <- (if below then lift (py_gt power_pre (power_delim self)) else ret false);
  if crossed then
    do _ <- lift (format_2f power_pre);
    do _ <- lift (format_2f power_now);
    let msg := PowerHasDropped power_pre power_now in
    do _ <- log (Info msg);
    send_message self msg
  else ret tt.

(** "Sensor communication" *)
Definition sensor_communication (self : StateMonitor) (input_data : option sample) : M unit :=
  do (comm_now, comm_pre) <- now_then self input_data "ping";
  if truthy comm_now && negb (truthy comm_pre) then
    let msg := NoCommunication in
    do _ <- log (Info msg);
    send_message self msg
  else ret tt.

(** "LED state" *)
Definition led_state (self : StateMonitor) (input_data : option sample) : M unit :=
  do (state_now, state_pre) <- now_then self input_data "led_state";
  do critical <- lift (py_ge state_now (VInt 12));
  if critical && py_ne state_now state_pre then
    let msg := CriticalFailure state_now in
    do _ <- log (Info msg);
    send_message self msg
  else ret tt.

Definition try_body (self : StateMonitor) (input_data : option sample) : M unit :=
  do _ <- power_drops self input_data;
  do _ <- sensor_communication self input_data;
  led_state self input_data.

(** [data.items()] inside the handler: [None] has no such attribute. *)
Definition log_data (item : string * option sample) : M unit :=
  let '(pretty_name, data) := item in
  match data with
  | Some d => log (Info_data pretty_name d)
  | None => raise AttributeError
  end.

(** The [except Exception as e] clause. *)
Definition except_handler (self : StateMonitor) (input_data : option sample) (e : exn) : M unit :=
  do _ <- log (Error_evaluating e);
  do _ <- log Info_error_details;
  for_each [("Current", input_data); ("Previous", _previous_data self)] log_data.

(** The whole [try ... except Exception as e ...] statement. *)
Definition try_statement (self : StateMonitor) (input_data : option sample) : M unit :=
  try_except (try_body self input_data) (except_handler self input_data).

(** [StateMonitor.execute]: the object after the call and the run of the
    call.  An exception that leaves the handler leaves [execute] before the
    final assignment. *)
Definition execute (self : StateMonitor) (input_data : option sample) (n : nat)
  : StateMonitor * run (option sample) :=
  let self :=
    match _previous_data self with
    | None => set_previous_data self input_data
    | Some _ => self
    end in
  let r := try_statement self input_data n in
  match result r with
  | Return _ =>
      (set_previous_data self input_data,
       {| result := Return input_data; emitted := emitted r; requests := requests r |})
  | Raise e =>
      (self, {| result := Raise e; emitted := emitted r; requests := requests r |})
  end.

(** Successive passes of the pipeline over a list of samples: the effects
    of each pass, in order. *)
Fixpoint passes (self : StateMonitor) (inputs : list sample) (n : nat) : list (list effect) :=
  match inputs with
  | [] => []
  | input_data :: inputs =>
      let '(self', r) := execute self (Some input_data) n in
      emitted r :: passes self' inputs (requests r)
  end.

End Plugin.

(** ** Reading the effects of a pass *)

(** The messages of the rules that were logged ([logger.info(msg)]). *)
Fixpoint notices (l : list effect) : list text :=
  match l with
  | [] => []
  | Log (Info msg) :: l => msg :: notices l
  | _ :: l => notices l
  end.

(** The payloads handed to [urlopen]. *)
Fixpoint deliveries (l : list effect) : list text :=
  match l with
  | [] => []
  | Urlopen data :: l => data :: deliveries l
  | _ :: l => deliveries l
  end.

(** The warnings of the sender. *)
Fixpoint warnings (l : list effect) : list text :=
  match l with
  | [] => []
  | Log (Warning msg) :: l => msg :: warnings l
  | _ :: l => warnings l
  end.

Definition is_power_drop (msg : text) : bool :=
  match msg with PowerHasDropped _ _ => true | _ => false end.

(** [power = adc_vl_f.value * adc_il_f.value] of one sample. *)
Definition power (data : sample) : outcome pyval :=
  bind_outcome (subscript_value (Some data) "adc_vl_f") (fun load =>
  bind_outcome (subscript_value (Some data) "adc_il_f") (fun curr =>
  py_mul load curr)).

(** [power_now < threshold and power_previous > threshold]. *)
Definition crossing (power_now power_pre threshold : pyval) : Prop :=
  py_lt power_now threshold = Return true /\ py_gt power_pre threshold = Return true.

(** A computation that emits [l] and then goes on as [r]. *)
Definition after {A} (l : list effect) (r : run A) : run A :=
  {| result := result r; emitted := l ++ emitted r; requests := requests r |}.

(** What the handler logs for two mappings. *)
Definition error_report (e : exn) (cur prev : sample) : list effect :=
  [Log (Error_evaluating e); Log Info_error_details;
   Log (Info_data "Current" cur); Log (Info_data "Previous" prev)].

(** The number of power-drop messages logged in a pass. *)
Definition power_drop_count (l : list effect) : nat :=
  length (filter is_power_drop (notices l)).

(** The number of power-drop messages handed to [urlopen] in a pass. *)
Definition is_power_drop_request (data : text) : bool :=
  match data with
  | MessageFromSensor _ (PowerHasDropped _ _) => true
  | _ => false
  end.

Definition power_drop_requests (l : list effect) : nat :=
  length (filter is_power_drop_request (deliveries l)).

(** The power of a sample is below the delimiter. *)
Definition below (threshold : pyval) (data : sample) : Prop :=
  exists p, power data = Return p /\ py_lt p threshold = Return true.

(** A rule fires: its message is logged and, when a sender is configured,
    handed to it. *)
Definition fires (env : environment) (self : StateMonitor) (msg : text) (l : list effect) : Prop :=
  In (Log (Info msg)) l /\
  (sender self <> None -> In (Urlopen (construct_message env msg)) l).

(** The request numbered [k] makes [send] raise: no answer comes, the
    status is outside 200..299, or the status is not 200 and no logger is
    attached. *)
Definition send_raises (env : environment) (s : SlackSender) (k : nat) : bool :=
  match network env k with
  | Unreachable => true
  | Response status =>
      negb ((200 <=? status) && (status <? 300))
      || (negb (status =? 200) && negb (logger s))
  end.

(** The effects [l], made from the request numbered [k] on, stop at a
    request that makes [send] raise: when the request numbered [k + i]
    raises, at most [i + 1] requests are made and messages logged, and if
    that request is made it is followed by the error report of the
    exception that [send] raised, and by nothing else. *)
Definition stops_at_failed_send (env : environment) (s : SlackSender)
    (cur prev : sample) (k : nat) (l : list effect) : Prop :=
  forall i, send_raises env s (k + i)%nat = true ->
    (length (deliveries l) <= S i)%nat /\
    (length (notices l) <= S i)%nat /\
    (length (deliveries l) = S i ->
     exists pre msg e,
       l = pre ++ [Urlopen (construct_message env msg)] ++ error_report e cur prev /\
       result (send env s (construct_message env msg) (k + i)%nat) = Raise e).





(** The object that the [try] statement of a pass over [input_data] works
    on: the first pass stores its input before comparing. *)
Definition seeded (self : StateMonitor) (input_data : option sample) : StateMonitor :=
  match _previous_data self with
  | None => set_previous_data self input_data
  | Some _ => self
  end.

(** ** Concrete samples *)

(** The float [m * 2^e], rounded. *)
Definition float_lit (m e : Z) : pyval :=
  VFloat (binary_normalize float_prec float_emax m e false).

Definition sample_of (fields : list (string * pyval)) : sample :=
  list_to_map (map (fun kv => (fst kv, {| value := snd kv |})) fields).

(** A sample with the four fields that the rules read. *)
Definition reading (adc_vl_f adc_il_f ping led : pyval) : sample :=
  sample_of [("adc_vl_f", adc_vl_f); ("adc_il_f", adc_il_f);
             ("ping", ping); ("led_state", led)].

Definition answering (status : Z) : environment :=
  {| METADATA_name := "mjolnir"; UNIT_CONFIG_number := 7;
     network := fun _ => Response status |}.

Definition unreachable : environment :=
  {| METADATA_name := "mjolnir"; UNIT_CONFIG_number := 7;
     network := fun _ => Unreachable |}.

Definition slack : SlackSender := {| logger := true; request_url := "https://hooks.slack.com/services/T/B/x" |}.
Definition slack_without_logger : SlackSender :=
  {| logger := false; request_url := "https://hooks.slack.com/services/T/B/x" |}.

(** A monitor that has already seen [prev]. *)
Definition monitor_after (sender : option SlackSender) (prev : sample) : StateMonitor :=
  set_previous_data (StateMonitor_init default_power_delim sender) (Some prev).

(** * Lemmas *)

(** ** Laws of the computations *)

Lemma run_ext {A} (r r' : run A) :
  result r = result r' -> emitted r = emitted r' -> requests r = requests r' -> r = r'.
Proof. destruct r, r'; simpl; intros; subst; reflexivity. Qed.

Lemma after_nil {A} (r : run A) : after [] r = r.
Proof. apply run_ext; reflexivity. Qed.

Lemma after_after {A} l l' (r : run A) : after l (after l' r) = after (l ++ l') r.
Proof. unfold after; simpl. rewrite app_assoc. reflexivity. Qed.

Lemma bind_ret {A B} (a : A) (k : A -> M B) n : bind (ret a) k n = k a n.
Proof. apply run_ext; reflexivity. Qed.

Lemma bind_raise {A B} e (k : A -> M B) n : bind (raise e) k n = raise e n.
Proof. reflexivity. Qed.

Lemma bind_lift {A B} (o : outcome A) (k : A -> M B) n :
  bind (lift o) k n = match o with Return a => k a n | Raise e => raise e n end.
Proof. destruct o; [apply bind_ret | apply bind_raise]. Qed.

Lemma bind_log {B} r (k : unit -> M B) n : bind (log r) k n = after [Log r] (k tt n).
Proof. reflexivity. Qed.

Lemma bind_run {A B} (m : M A) (k : A -> M B) n :
  bind m k n =
  match result (m n) with
  | Return a => after (emitted (m n)) (k a (requests (m n)))
  | Raise e => {| result := Raise e; emitted := emitted (m n); requests := requests (m n) |}
  end.
Proof. unfold bind. destruct (result (m n)); reflexivity. Qed.

Lemma notices_app l l' : notices (l ++ l') = notices l ++ notices l'.
Proof.
  induction l as [|[[]|] l IH]; simpl; rewrite ?IH; reflexivity.
Qed.

Lemma deliveries_app l l' : deliveries (l ++ l') = deliveries l ++ deliveries l'.
Proof.
  induction l as [|[[]|] l IH]; simpl; rewrite ?IH; reflexivity.
Qed.

Lemma notices_In msg l : In (Log (Info msg)) l <-> In msg (notices l).
Proof.
  induction l as [|e l IH]; simpl; [tauto|].
  destruct e as [[]|]; simpl; rewrite <- IH;
    split; intros H; try tauto;
    destruct H as [H|H]; try discriminate; try tauto; inversion H; tauto.
Qed.

Lemma deliveries_In data l : In (Urlopen data) l <-> In data (deliveries l).
Proof.
  induction l as [|e l IH]; simpl; [tauto|].
  destruct e as [[]|]; simpl; rewrite <- IH;
    split; intros H; try tauto;
    destruct H as [H|H]; try discriminate; try tauto; inversion H; tauto.
Qed.

(** ** Facts on comparisons *)

Lemma crossing_irrefl p threshold : ~ crossing p p threshold.
Proof.
  unfold crossing, py_lt, py_gt.
  destruct (py_compare p threshold) as [[[]|]|]; simpl; intros [? ?]; discriminate.
Qed.

(** A value cannot be below the delimiter and above it. *)
Lemma py_lt_not_gt p threshold :
  py_lt p threshold = Return true -> py_gt p threshold <> Return true.
Proof.
  unfold py_lt, py_gt.
  destruct (py_compare p threshold) as [[[]|]|]; simpl; intros ? ?; discriminate.
Qed.

Lemma py_eq_not_lt p threshold :
  py_eq p threshold = true -> py_lt p threshold <> Return true.
Proof.
  unfold py_eq, py_lt.
  destruct p, threshold; cbn [py_compare bind_outcome];
    try (intros ? ?; discriminate);
    match goal with
    | |- is_eq ?c = true -> _ => destruct c as [[]|]; simpl; intros ? ?; discriminate
    end.
Qed.

Lemma py_eq_not_gt p threshold :
  py_eq p threshold = true -> py_gt p threshold <> Return true.
Proof.
  unfold py_eq, py_gt.
  destruct p, threshold; cbn [py_compare bind_outcome];
    try (intros ? ?; discriminate);
    match goal with
    | |- is_eq ?c = true -> _ => destruct c as [[]|]; simpl; intros ? ?; discriminate
    end.
Qed.

Lemma SFcompare_refl f : f <> S754_nan -> SFcompare f f = Some Eq.
Proof.
  destruct f as [s|s| |s m e]; intros H; try congruence; destruct s; simpl;
    rewrite ?Z.compare_refl, ?Pos.compare_cont_refl; reflexivity.
Qed.

(** Only a NaN differs from itself, and a NaN is not [>=] anything. *)
Lemma py_ge_ne_self v w : py_ge v w = Return true -> py_ne v v = false.
Proof.
  unfold py_ne, py_eq, py_ge.
  destruct v as [|b|z|f]; simpl.
  - destruct w; discriminate.
  - intros _. rewrite Z.compare_refl. reflexivity.
  - intros _. rewrite Z.compare_refl. reflexivity.
  - intros H.
    assert (Hf : f <> S754_nan).
    { intros ->. destruct w; simpl in H; discriminate. }
    rewrite (SFcompare_refl _ Hf). reflexivity.
Qed.

(** ** The sender *)

Section Facts.

Variable env : environment.

(** The three ways a [send] can go. *)
Lemma send_cases s msg n :
  (network env n = Response 200 /\ send_raises env s n = false /\
   send env s msg n =
   {| result := Return tt; emitted := [Urlopen msg]; requests := S n |}) \/
  (exists status,
     network env n = Response status /\ 200 < status < 300 /\ logger s = true /\
     send_raises env s n = false /\
     send env s msg n =
     {| result := Return tt;
        emitted := [Urlopen msg; Log (Warning (SendingFailed msg))];
        requests := S n |}) \/
  (exists e,
     send_raises env s n = true /\
     send env s msg n =
     {| result := Raise e; emitted := [Urlopen msg]; requests := S n |}).
Proof.
  unfold send, send_raises. rewrite bind_run. unfold urlopen.
  cbn [result emitted requests].
  destruct (network env n) as [status|]; [|right; right; eauto].
  destruct ((200 <=? status) && (status <? 300)) eqn:H2xx; [|right; right; eauto].
  apply andb_prop in H2xx as [Hlo Hhi].
  apply Z.leb_le in Hlo. apply Z.ltb_lt in Hhi.
  destruct (status =? 200) eqn:H200.
  - apply Z.eqb_eq in H200. subst status. left. auto.
  - apply Z.eqb_neq in H200. destruct (logger s) eqn:Hl.
    + right; left. exists status. repeat split; auto; lia.
    + right; right. eexists. split; reflexivity.
Qed.

(** [send] makes exactly one request, whatever the reply. *)
Lemma send_deliveries s msg n : deliveries (emitted (send env s msg n)) = [msg].
Proof.
  destruct (send_cases s msg n)
    as [(_ & _ & ->)|[(? & _ & _ & _ & _ & ->)|(? & _ & ->)]]; reflexivity.
Qed.

Lemma send_notices s msg n : notices (emitted (send env s msg n)) = [].
Proof.
  destruct (send_cases s msg n)
    as [(_ & _ & ->)|[(? & _ & _ & _ & _ & ->)|(? & _ & ->)]]; reflexivity.
Qed.

Lemma send_message_notices self msg n :
  notices (emitted (send_message env self msg n)) = [].
Proof.
  unfold send_message. destruct (sender self); [apply send_notices | reflexivity].
Qed.

Lemma send_message_deliveries self msg n :
  deliveries (emitted (send_message env self msg n)) =
  match sender self with
  | Some _ => [construct_message env msg]
  | None => []
  end.
Proof.
  unfold send_message. destruct (sender self); [apply send_deliveries | reflexivity].
Qed.

(** ** The blocks of the [try] statement *)

Lemma now_then_run {B} self input_data key (k : pyval * pyval -> M B) n :
  bind (now_then self input_data key) k n =
  match subscript_value input_data key with
  | Return now =>
      match subscript_value (_previous_data self) key with
      | Return pre => k (now, pre) n
      | Raise e => raise e n
      end
  | Raise e => raise e n
  end.
Proof.
  unfold now_then.
  destruct (subscript_value input_data key) as [now|e]; simpl; [|reflexivity].
  destruct (subscript_value (_previous_data self) key) as [pre|e]; simpl; [|reflexivity].
  apply run_ext; reflexivity.
Qed.

Lemma power_inv data p :
  power data = Return p ->
  exists load curr,
    subscript_value (Some data) "adc_vl_f" = Return load /\
    subscript_value (Some data) "adc_il_f" = Return curr /\
    py_mul load curr = Return p.
Proof.
  unfold power. intros H.
  destruct (subscript_value (Some data) "adc_vl_f") as [load|]; [|discriminate].
  destruct (subscript_value (Some data) "adc_il_f") as [curr|]; [|discriminate].
  eauto.
Qed.

(** When the powers are computed and can be formatted, the block logs and
    sends its message exactly when the power crossed the delimiter. *)
Lemma power_drops_fires self cur prev p_now p_pre n :
  _previous_data self = Some prev ->
  power cur = Return p_now -> power prev = Return p_pre ->
  format_2f p_pre = Return tt -> format_2f p_now = Return tt ->
  crossing p_now p_pre (power_delim self) ->
  power_drops env self (Some cur) n =
  after [Log (Info (PowerHasDropped p_pre p_now))]
        (send_message env self (PowerHasDropped p_pre p_now) n).
Proof.
  intros Hprev Hnow Hpre Fpre Fnow [Hlt Hgt].
  apply power_inv in Hnow as (ln & cn & Hln & Hcn & Hmn).
  apply power_inv in Hpre as (lp & cp & Hlp & Hcp & Hmp).
  unfold power_drops.
  rewrite now_then_run, Hprev, Hln, Hlp.
  rewrite now_then_run, Hprev, Hcn, Hcp.
  rewrite bind_lift, Hmn, bind_lift, Hmp, bind_lift, Hlt, bind_lift, Hgt.
  rewrite bind_lift, Fpre, bind_lift, Fnow.
  reflexivity.
Qed.

(** Whatever the samples, the block either emits nothing or has fired. *)
Lemma power_drops_cases self input_data n :
  (emitted (power_drops env self input_data n) = [] /\
   requests (power_drops env self input_data n) = n) \/
  exists cur prev p_now p_pre,
    input_data = Some cur /\ _previous_data self = Some prev /\
    power cur = Return p_now /\ power prev = Return p_pre /\
    crossing p_now p_pre (power_delim self) /\
    power_drops env self input_data n =
    after [Log (Info (PowerHasDropped p_pre p_now))]
          (send_message env self (PowerHasDropped p_pre p_now) n).
Proof.
  unfold power_drops.
  rewrite now_then_run.
  destruct (subscript_value input_data "adc_vl_f") as [ln|] eqn:Hln; [|left; split; reflexivity].
  destruct (subscript_value (_previous_data self) "adc_vl_f") as [lp|] eqn:Hlp; [|left; split; reflexivity].
  rewrite now_then_run.
  destruct (subscript_value input_data "adc_il_f") as [cn|] eqn:Hcn; [|left; split; reflexivity].
  destruct (subscript_value (_previous_data self) "adc_il_f") as [cp|] eqn:Hcp; [|left; split; reflexivity].
  rewrite bind_lift.
  destruct (py_mul ln cn) as [p_now|] eqn:Hmn; [|left; split; reflexivity].
  rewrite bind_lift.
  destruct (py_mul lp cp) as [p_pre|] eqn:Hmp; [|left; split; reflexivity].
  rewrite bind_lift.
  destruct (py_lt p_now (power_delim self)) as [[]|] eqn:Hlt; [| |left; split; reflexivity].
  - rewrite bind_lift.
    destruct (py_gt p_pre (power_delim self)) as [[]|] eqn:Hgt;
      [| left; split; reflexivity | left; split; reflexivity].
    rewrite bind_lift.
    destruct (format_2f p_pre) as [[]|]; [|left; split; reflexivity].
    rewrite bind_lift.
    destruct (format_2f p_now) as [[]|]; [|left; split; reflexivity].
    right.
    destruct input_data as [cur|]; [|discriminate].
    destruct (_previous_data self) as [prev|]; [|discriminate].
    exists cur, prev, p_now, p_pre.
    unfold power. rewrite Hln, Hcn, Hlp, Hcp. simpl.
    repeat split; auto.
  - rewrite bind_ret. left; split; reflexivity.
Qed.

Lemma sensor_communication_fires self input_data comm_now comm_pre n :
  subscript_value input_data "ping" = Return comm_now ->
  subscript_value (_previous_data self) "ping" = Return comm_pre ->
  truthy comm_now = true -> truthy comm_pre = false ->
  sensor_communication env self input_data n =
  after [Log (Info NoCommunication)] (send_message env self NoCommunication n).
Proof.
  intros Hnow Hpre Tnow Tpre.
  unfold sensor_communication.
  rewrite now_then_run, Hnow, Hpre, Tnow, Tpre. reflexivity.
Qed.

Lemma sensor_communication_cases self input_data n :
  (emitted (sensor_communication env self input_data n) = [] /\
   requests (sensor_communication env self input_data n) = n) \/
  exists comm_now comm_pre,
    subscript_value input_data "ping" = Return comm_now /\
    subscript_value (_previous_data self) "ping" = Return comm_pre /\
    truthy comm_now = true /\ truthy comm_pre = false /\
    sensor_communication env self input_data n =
    after [Log (Info NoCommunication)] (send_message env self NoCommunication n).
Proof.
  unfold sensor_communication.
  rewrite now_then_run.
  destruct (subscript_value input_data "ping") as [comm_now|] eqn:Hnow; [|left; split; reflexivity].
  destruct (subscript_value (_previous_data self) "ping") as [comm_pre|] eqn:Hpre;
    [|left; split; reflexivity].
  destruct (truthy comm_now) eqn:Tnow; [|left; split; reflexivity].
  destruct (truthy comm_pre) eqn:Tpre; [left; split; reflexivity|].
  right. exists comm_now, comm_pre. auto.
Qed.


Lemma led_state_cases self input_data n :
  (emitted (led_state env self input_data n) = [] /\
   requests (led_state env self input_data n) = n) \/
  exists state_now state_pre,
    subscript_value input_data "led_state" = Return state_now /\
    subscript_value (_previous_data self) "led_state" = Return state_pre /\
    py_ge state_now (VInt 12) = Return true /\ py_ne state_now state_pre = true /\
    led_state env self input_data n =
    after [Log (Info (CriticalFailure state_now))]
          (send_message env self (CriticalFailure state_now) n).
Proof.
  unfold led_state.
  rewrite now_then_run.
  destruct (subscript_value input_data "led_state") as [state_now|] eqn:Hnow;
    [|left; split; reflexivity].
  destruct (subscript_value (_previous_data self) "led_state") as [state_pre|] eqn:Hpre;
    [|left; split; reflexivity].
  rewrite bind_lift.
  destruct (py_ge state_now (VInt 12)) as [[]|] eqn:Hge;
    [| left; split; reflexivity | left; split; reflexivity].
  simpl.
  destruct (py_ne state_now state_pre) eqn:Hne; [|left; split; reflexivity].
  right. exists state_now, state_pre. auto.
Qed.

(** ** The [try] statement and [execute] *)

Lemma except_handler_run self cur prev e n :
  _previous_data self = Some prev ->
  except_handler self (Some cur) e n =
  {| result := Return tt; emitted := error_report e cur prev; requests := n |}.
Proof. intros Hprev. unfold except_handler. rewrite Hprev. reflexivity. Qed.

Section Blocks.

Variables (self : StateMonitor) (cur prev : sample) (n : nat).
Hypothesis Hprev : _previous_data self = Some prev.

Let r1 := power_drops env self (Some cur) n.
Let r2 := sensor_communication env self (Some cur) (requests r1).
Let r3 := led_state env self (Some cur) (requests r2).

Lemma try_statement_power_raises e :
  result r1 = Raise e ->
  try_statement env self (Some cur) n =
  {| result := Return tt;
     emitted := emitted r1 ++ error_report e cur prev;
     requests := requests r1 |}.
Proof.
  intros H1. unfold try_statement, try_except, try_body.
  rewrite bind_run. fold r1. rewrite H1. cbn [result emitted requests].
  rewrite (except_handler_run _ _ _ _ _ Hprev). reflexivity.
Qed.

Lemma try_statement_ping_raises u e :
  result r1 = Return u -> result r2 = Raise e ->
  try_statement env self (Some cur) n =
  {| result := Return tt;
     emitted := emitted r1 ++ emitted r2 ++ error_report e cur prev;
     requests := requests r2 |}.
Proof.
  intros H1 H2. unfold try_statement, try_except, try_body.
  rewrite bind_run. fold r1. rewrite H1.
  rewrite bind_run. fold r2. rewrite H2. cbn [result emitted requests after].
  rewrite (except_handler_run _ _ _ _ _ Hprev). cbn [result emitted requests].
  rewrite <- app_assoc. reflexivity.
Qed.

Lemma try_statement_led_raises u u' e :
  result r1 = Return u -> result r2 = Return u' -> result r3 = Raise e ->
  try_statement env self (Some cur) n =
  {| result := Return tt;
     emitted := emitted r1 ++ emitted r2 ++ emitted r3 ++ error_report e cur prev;
     requests := requests r3 |}.
Proof.
  intros H1 H2 H3. unfold try_statement, try_except, try_body.
  rewrite bind_run. fold r1. rewrite H1.
  rewrite bind_run. fold r2. rewrite H2. cbn [result emitted requests after].
  fold r3. rewrite H3.
  rewrite (except_handler_run _ _ _ _ _ Hprev). cbn [result emitted requests].
  rewrite <- !app_assoc. reflexivity.
Qed.

Lemma try_statement_no_raise u u' u'' :
  result r1 = Return u -> result r2 = Return u' -> result r3 = Return u'' ->
  try_statement env self (Some cur) n =
  {| result := Return tt;
     emitted := emitted r1 ++ emitted r2 ++ emitted r3;
     requests := requests r3 |}.
Proof.
  intros H1 H2 H3. unfold try_statement, try_except, try_body.
  rewrite bind_run. fold r1. rewrite H1.
  rewrite bind_run. fold r2. rewrite H2. cbn [result emitted requests after].
  fold r3. rewrite H3.
  destruct u''. unfold after. cbn [result emitted requests].
  rewrite H3. reflexivity.
Qed.

(** With two mappings at hand the statement always completes. *)
Lemma try_statement_returns :
  result (try_statement env self (Some cur) n) = Return tt.
Proof.
  destruct (result r1) as [u|e] eqn:H1;
    [|rewrite (try_statement_power_raises _ H1); reflexivity].
  destruct (result r2) as [u'|e] eqn:H2;
    [|rewrite (try_statement_ping_raises _ _ H1 H2); reflexivity].
  destruct (result r3) as [u''|e] eqn:H3;
    [|rewrite (try_statement_led_raises _ _ _ H1 H2 H3); reflexivity].
  rewrite (try_statement_no_raise _ _ _ H1 H2 H3); reflexivity.
Qed.

Lemma execute_baselined :
  execute env self (Some cur) n =
  (set_previous_data self (Some cur),
   {| result := Return (Some cur);
      emitted := emitted (try_statement env self (Some cur) n);
      requests := requests (try_statement env self (Some cur) n) |}).
Proof.
  unfold execute. rewrite Hprev, try_statement_returns. reflexivity.
Qed.

End Blocks.

Lemma execute_first self cur n :
  _previous_data self = None ->
  execute env self (Some cur) n =
  execute env (set_previous_data self (Some cur)) (Some cur) n.
Proof. intros H. unfold execute. rewrite H. reflexivity. Qed.

(** ** What a pass can log and send *)

Lemma error_report_notices e cur prev : notices (error_report e cur prev) = [].
Proof. reflexivity. Qed.

Lemma error_report_deliveries e cur prev : deliveries (error_report e cur prev) = [].
Proof. reflexivity. Qed.

Lemma fired_notices self msg n :
  notices (emitted (after [Log (Info msg)] (send_message env self msg n))) = [msg].
Proof. simpl. rewrite send_message_notices. reflexivity. Qed.

Lemma fired_deliveries self msg n :
  deliveries (emitted (after [Log (Info msg)] (send_message env self msg n))) =
  match sender self with
  | Some _ => [construct_message env msg]
  | None => []
  end.
Proof. simpl. apply send_message_deliveries. Qed.

Lemma power_drops_notices self input_data n msg :
  In msg (notices (emitted (power_drops env self input_data n))) ->
  exists power_pre power_now, msg = PowerHasDropped power_pre power_now.
Proof.
  destruct (power_drops_cases self input_data n)
    as [[-> _]|(cur & prev & p_now & p_pre & _ & _ & _ & _ & _ & ->)].
  - intros [].
  - rewrite fired_notices. intros [<-|[]]. eauto.
Qed.

Lemma sensor_communication_notices self input_data n msg :
  In msg (notices (emitted (sensor_communication env self input_data n))) ->
  msg = NoCommunication.
Proof.
  destruct (sensor_communication_cases self input_data n)
    as [[-> _]|(comm_now & comm_pre & _ & _ & _ & _ & ->)].
  - intros [].
  - rewrite fired_notices. intros [<-|[]]. reflexivity.
Qed.

Lemma led_state_notices self input_data n msg :
  In msg (notices (emitted (led_state env self input_data n))) ->
  exists state_now, msg = CriticalFailure state_now.
Proof.
  destruct (led_state_cases self input_data n)
    as [[-> _]|(state_now & state_pre & _ & _ & _ & _ & ->)].
  - intros [].
  - rewrite fired_notices. intros [<-|[]]. eauto.
Qed.

Lemma power_drops_deliveries self input_data n data :
  In data (deliveries (emitted (power_drops env self input_data n))) ->
  exists power_pre power_now,
    data = construct_message env (PowerHasDropped power_pre power_now).
Proof.
  destruct (power_drops_cases self input_data n)
    as [[-> _]|(cur & prev & p_now & p_pre & _ & _ & _ & _ & _ & ->)].
  - intros [].
  - rewrite fired_deliveries.
    destruct (sender self); [intros [<-|[]]; eauto | intros []].
Qed.

Lemma sensor_communication_deliveries self input_data n data :
  In data (deliveries (emitted (sensor_communication env self input_data n))) ->
  data = construct_message env NoCommunication.
Proof.
  destruct (sensor_communication_cases self input_data n)
    as [[-> _]|(comm_now & comm_pre & _ & _ & _ & _ & ->)].
  - intros [].
  - rewrite fired_deliveries.
    destruct (sender self); [intros [<-|[]]; reflexivity | intros []].
Qed.

Lemma led_state_deliveries self input_data n data :
  In data (deliveries (emitted (led_state env self input_data n))) ->
  exists state_now, data = construct_message env (CriticalFailure state_now).
Proof.
  destruct (led_state_cases self input_data n)
    as [[-> _]|(state_now & state_pre & _ & _ & _ & _ & ->)].
  - intros [].
  - rewrite fired_deliveries.
    destruct (sender self); [intros [<-|[]]; eauto | intros []].
Qed.

(** The effects of the [try] statement, block after block: a block is
    reached only when those before it have returned. *)
Lemma try_statement_notices self cur prev n :
  _previous_data self = Some prev ->
  let r1 := power_drops env self (Some cur) n in
  let r2 := sensor_communication env self (Some cur) (requests r1) in
  let r3 := led_state env self (Some cur) (requests r2) in
  notices (emitted (try_statement env self (Some cur) n)) =
  notices (emitted r1) ++
  match result r1 with
  | Raise _ => []
  | Return _ =>
      notices (emitted r2) ++
      match result r2 with
      | Raise _ => []
      | Return _ => notices (emitted r3)
      end
  end.
Proof.
  intros Hprev r1 r2 r3.
  destruct (result r1) as [u|e] eqn:H1.
  2:{ rewrite (try_statement_power_raises _ _ _ _ Hprev _ H1). cbn [emitted].
      rewrite notices_app, error_report_notices. reflexivity. }
  destruct (result r2) as [u'|e] eqn:H2.
  2:{ rewrite (try_statement_ping_raises _ _ _ _ Hprev _ _ H1 H2). cbn [emitted].
      rewrite !notices_app, error_report_notices, !app_nil_r. reflexivity. }
  destruct (result r3) as [u''|e] eqn:H3.
  2:{ rewrite (try_statement_led_raises _ _ _ _ Hprev _ _ _ H1 H2 H3). cbn [emitted].
      rewrite !notices_app, error_report_notices, !app_nil_r. reflexivity. }
  rewrite (try_statement_no_raise self cur n _ _ _ H1 H2 H3). cbn [emitted].
  rewrite !notices_app. reflexivity.
Qed.

Lemma try_statement_deliveries self cur prev n :
  _previous_data self = Some prev ->
  let r1 := power_drops env self (Some cur) n in
  let r2 := sensor_communication env self (Some cur) (requests r1) in
  let r3 := led_state env self (Some cur) (requests r2) in
  deliveries (emitted (try_statement env self (Some cur) n)) =
  deliveries (emitted r1) ++
  match result r1 with
  | Raise _ => []
  | Return _ =>
      deliveries (emitted r2) ++
      match result r2 with
      | Raise _ => []
      | Return _ => deliveries (emitted r3)
      end
  end.
Proof.
  intros Hprev r1 r2 r3.
  destruct (result r1) as [u|e] eqn:H1.
  2:{ rewrite (try_statement_power_raises _ _ _ _ Hprev _ H1). cbn [emitted].
      rewrite deliveries_app, error_report_deliveries. reflexivity. }
  destruct (result r2) as [u'|e] eqn:H2.
  2:{ rewrite (try_statement_ping_raises _ _ _ _ Hprev _ _ H1 H2). cbn [emitted].
      rewrite !deliveries_app, error_report_deliveries, !app_nil_r. reflexivity. }
  destruct (result r3) as [u''|e] eqn:H3.
  2:{ rewrite (try_statement_led_raises _ _ _ _ Hprev _ _ _ H1 H2 H3). cbn [emitted].
      rewrite !deliveries_app, error_report_deliveries, !app_nil_r. reflexivity. }
  rewrite (try_statement_no_raise self cur n _ _ _ H1 H2 H3). cbn [emitted].
  rewrite !deliveries_app. reflexivity.
Qed.

(** The effects of the [try] statement in one equation. *)
Lemma try_statement_emitted self cur prev n :
  _previous_data self = Some prev ->
  let r1 := power_drops env self (Some cur) n in
  let r2 := sensor_communication env self (Some cur) (requests r1) in
  let r3 := led_state env self (Some cur) (requests r2) in
  emitted (try_statement env self (Some cur) n) =
  emitted r1 ++
  match result r1 with
  | Raise e => error_report e cur prev
  | Return _ =>
      emitted r2 ++
      match result r2 with
      | Raise e => error_report e cur prev
      | Return _ =>
          emitted r3 ++
          match result r3 with
          | Raise e => error_report e cur prev
          | Return _ => []
          end
      end
  end.
Proof.
  intros Hprev r1 r2 r3.
  destruct (result r1) as [u|e] eqn:H1.
  2:{ rewrite (try_statement_power_raises self cur prev n Hprev e H1). reflexivity. }
  destruct (result r2) as [u'|e] eqn:H2.
  2:{ rewrite (try_statement_ping_raises self cur prev n Hprev u e H1 H2). reflexivity. }
  destruct (result r3) as [u''|e] eqn:H3.
  2:{ rewrite (try_statement_led_raises self cur prev n Hprev u u' e H1 H2 H3).
      reflexivity. }
  rewrite (try_statement_no_raise self cur n u u' u'' H1 H2 H3). cbn [emitted].
  rewrite app_nil_r. reflexivity.
Qed.

(** ** A pass whose input is [None] *)

Lemma execute_None self n :
  snd (execute env self None n) =
  {| result := Raise AttributeError;
     emitted := [Log (Error_evaluating TypeError); Log Info_error_details];
     requests := n |} /\
  _previous_data (fst (execute env self None n)) = _previous_data self.
Proof.
  unfold execute. destruct (_previous_data self) eqn:Hprev; split; try reflexivity.
  simpl. exact Hprev.
Qed.

(** ** A pass that compares a sample with itself *)

Lemma same_sample_power_drops self cur n :
  _previous_data self = Some cur ->
  emitted (power_drops env self (Some cur) n) = [].
Proof.
  intros Hprev.
  destruct (power_drops_cases self (Some cur) n)
    as [[H _]|(cur' & prev & p_now & p_pre & Hc & Hp & Hnow & Hpre & Hx & _)]; [exact H|].
  exfalso. injection Hc as <-. rewrite Hprev in Hp. injection Hp as <-.
  rewrite Hnow in Hpre. injection Hpre as <-.
  exact (crossing_irrefl _ _ Hx).
Qed.

Lemma same_sample_sensor_communication self cur n :
  _previous_data self = Some cur ->
  emitted (sensor_communication env self (Some cur) n) = [].
Proof.
  intros Hprev.
  destruct (sensor_communication_cases self (Some cur) n)
    as [[H _]|(comm_now & comm_pre & Hnow & Hpre & Tnow & Tpre & _)]; [exact H|].
  exfalso. rewrite Hprev, Hnow in Hpre. injection Hpre as <-. congruence.
Qed.

Lemma same_sample_led_state self cur n :
  _previous_data self = Some cur ->
  emitted (led_state env self (Some cur) n) = [].
Proof.
  intros Hprev.
  destruct (led_state_cases self (Some cur) n)
    as [[H _]|(state_now & state_pre & Hnow & Hpre & Hge & Hne & _)]; [exact H|].
  exfalso. rewrite Hprev, Hnow in Hpre. injection Hpre as <-.
  rewrite (py_ge_ne_self _ _ Hge) in Hne. discriminate.
Qed.

(** ** Which block a logged or sent message comes from *)

Section Origin.

Variables (self : StateMonitor) (cur prev : sample) (n : nat).
Hypothesis Hprev : _previous_data self = Some prev.

Let r1 := power_drops env self (Some cur) n.
Let r2 := sensor_communication env self (Some cur) (requests r1).
Let r3 := led_state env self (Some cur) (requests r2).
Let l := emitted (snd (execute env self (Some cur) n)).

Lemma pass_notices_cases msg :
  In msg (notices l) ->
  In msg (notices (emitted r1)) \/
  (exists u, result r1 = Return u /\ In msg (notices (emitted r2))) \/
  (exists u u', result r1 = Return u /\ result r2 = Return u' /\
                In msg (notices (emitted r3))).
Proof.
  unfold l. rewrite (execute_baselined self cur prev n Hprev). cbn [snd emitted].
  rewrite (try_statement_notices self cur prev n Hprev). fold r1 r2 r3.
  rewrite in_app_iff. intros [H|H]; [left; exact H|].
  destruct (result r1) as [u|] eqn:H1; [|destruct H].
  rewrite in_app_iff in H. destruct H as [H|H]; [right; left; eauto|].
  destruct (result r2) as [u'|] eqn:H2; [|destruct H].
  right; right; eauto.
Qed.

Lemma pass_deliveries_cases data :
  In data (deliveries l) ->
  In data (deliveries (emitted r1)) \/
  (exists u, result r1 = Return u /\ In data (deliveries (emitted r2))) \/
  (exists u u', result r1 = Return u /\ result r2 = Return u' /\
                In data (deliveries (emitted r3))).
Proof.
  unfold l. rewrite (execute_baselined self cur prev n Hprev). cbn [snd emitted].
  rewrite (try_statement_deliveries self cur prev n Hprev). fold r1 r2 r3.
  rewrite in_app_iff. intros [H|H]; [left; exact H|].
  destruct (result r1) as [u|] eqn:H1; [|destruct H].
  rewrite in_app_iff in H. destruct H as [H|H]; [right; left; eauto|].
  destruct (result r2) as [u'|] eqn:H2; [|destruct H].
  right; right; eauto.
Qed.

Lemma pass_includes_power_drops e : In e (emitted r1) -> In e l.
Proof.
  unfold l. rewrite (execute_baselined self cur prev n Hprev). cbn [snd emitted].
  intros H.
  destruct (result r1) as [u|x] eqn:H1.
  2:{ rewrite (try_statement_power_raises self cur prev n Hprev _ H1). cbn [emitted].
      apply in_or_app; left; exact H. }
  destruct (result r2) as [u'|x] eqn:H2.
  2:{ rewrite (try_statement_ping_raises self cur prev n Hprev _ _ H1 H2). cbn [emitted].
      apply in_or_app; left; exact H. }
  destruct (result r3) as [u''|x] eqn:H3.
  2:{ rewrite (try_statement_led_raises self cur prev n Hprev _ _ _ H1 H2 H3).
      cbn [emitted]. apply in_or_app; left; exact H. }
  rewrite (try_statement_no_raise self cur n _ _ _ H1 H2 H3). cbn [emitted].
  apply in_or_app; left; exact H.
Qed.

Lemma pass_includes_sensor_communication u e :
  result r1 = Return u -> In e (emitted r2) -> In e l.
Proof.
  unfold l. rewrite (execute_baselined self cur prev n Hprev). cbn [snd emitted].
  intros H1 H.
  destruct (result r2) as [u'|x] eqn:H2.
  2:{ rewrite (try_statement_ping_raises self cur prev n Hprev _ _ H1 H2). cbn [emitted].
      apply in_or_app; right; apply in_or_app; left; exact H. }
  destruct (result r3) as [u''|x] eqn:H3.
  2:{ rewrite (try_statement_led_raises self cur prev n Hprev _ _ _ H1 H2 H3).
      cbn [emitted]. apply in_or_app; right; apply in_or_app; left; exact H. }
  rewrite (try_statement_no_raise self cur n _ _ _ H1 H2 H3). cbn [emitted].
  apply in_or_app; right; apply in_or_app; left; exact H.
Qed.


End Origin.

End Facts.

(** * Properties of the plugin *)

(** ** Stored sample *)

(** C2. Every pass over a mapping completes, whether the rules were
    evaluated to the end or an exception was caught by the handler, and
    returns its input; and after any pass that completes, the stored
    previous sample [_previous_data] is that pass's input. *)
Theorem execute_stores_input env self input_data n :
  (forall cur, input_data = Some cur ->
     result (snd (execute env self input_data n)) = Return input_data) /\
  (forall v, result (snd (execute env self input_data n)) = Return v ->
     v = input_data /\
     _previous_data (fst (execute env self input_data n)) = input_data).
Proof.
  destruct input_data as [cur|].
  - assert (H : execute env self (Some cur) n =
                (set_previous_data self (Some cur),
                 {| result := Return (Some cur);
                    emitted := emitted (snd (execute env self (Some cur) n));
                    requests := requests (snd (execute env self (Some cur) n)) |})).
    { destruct (_previous_data self) as [prev|] eqn:Hprev.
      - rewrite (execute_baselined env self cur prev n Hprev). reflexivity.
      - rewrite (execute_first env self cur n Hprev).
        rewrite (execute_baselined env (set_previous_data self (Some cur)) cur cur n eq_refl).
        reflexivity. }
    rewrite H. simpl. split.
    + reflexivity.
    + intros v Hv. injection Hv as <-. split; reflexivity.
  - split; [discriminate|].
    intros v. rewrite (proj1 (execute_None env self n)). discriminate.
Qed.

(** ** The input [None] *)

(** C8 (the code departs from it). With [input_data=None], the documented
    default, the handler itself raises: [None.items()] is an
    [AttributeError] that leaves [execute]; nothing is returned and the
    stored sample is not updated. *)
Theorem execute_None_raises env self n :
  result (snd (execute env self None n)) = Raise AttributeError /\
  _previous_data (fst (execute env self None n)) = _previous_data self.
Proof.
  destruct (execute_None env self n) as [-> H]. split; [reflexivity | exact H].
Qed.

(** ** First pass *)

Lemma execute_mapping env self cur n :
  result (snd (execute env self (Some cur) n)) = Return (Some cur) /\
  _previous_data (fst (execute env self (Some cur) n)) = Some cur.
Proof.
  destruct (_previous_data self) as [prev|] eqn:Hprev.
  - rewrite (execute_baselined env self cur prev n Hprev). split; reflexivity.
  - rewrite (execute_first env self cur n Hprev).
    rewrite (execute_baselined env (set_previous_data self (Some cur)) cur cur n eq_refl).
    split; reflexivity.
Qed.

(** C3. On the first pass ([_previous_data] unset) no message of a rule is
    logged and nothing is sent, whatever the input is; the pass only seeds
    the baseline: over a mapping it returns its input and leaves it stored
    as the previous sample. *)
Theorem first_pass_is_silent env self input_data n :
  _previous_data self = None ->
  notices (emitted (snd (execute env self input_data n))) = [] /\
  deliveries (emitted (snd (execute env self input_data n))) = [] /\
  (forall cur, input_data = Some cur ->
     result (snd (execute env self input_data n)) = Return (Some cur) /\
     _previous_data (fst (execute env self input_data n)) = Some cur).
Proof.
  intros Hprev.
  assert (Hsilent :
            notices (emitted (snd (execute env self input_data n))) = [] /\
            deliveries (emitted (snd (execute env self input_data n))) = []).
  { destruct input_data as [cur|].
    - rewrite (execute_first env self cur n Hprev).
      set (self' := set_previous_data self (Some cur)).
      assert (Hprev' : _previous_data self' = Some cur) by reflexivity.
      rewrite (execute_baselined env self' cur cur n Hprev'). cbn [snd emitted].
      rewrite (try_statement_notices env self' cur cur n Hprev').
      rewrite (try_statement_deliveries env self' cur cur n Hprev').
      rewrite (same_sample_power_drops env self' cur n Hprev').
      rewrite (same_sample_sensor_communication env self' cur _ Hprev').
      rewrite (same_sample_led_state env self' cur _ Hprev').
      split; simpl;
        repeat match goal with |- context [match ?r with _ => _ end] => destruct r end;
        reflexivity.
    - rewrite (proj1 (execute_None env self n)). split; reflexivity. }
  destruct Hsilent as [Hn Hd]. split; [exact Hn|]. split; [exact Hd|].
  intros cur ->. apply execute_mapping.
Qed.

(** A first pass over a sample whose values would make every rule fire
    against a healthy baseline. *)
Lemma first_pass_is_silent_witness :
  let self := StateMonitor_init default_power_delim (Some slack) in
  let cur := reading (float_lit 0 0) (float_lit 0 0) (VInt 1) (VInt 13) in
  notices (emitted (snd (execute (answering 200) self (Some cur) 0))) = [] /\
  deliveries (emitted (snd (execute (answering 200) self (Some cur) 0))) = [] /\
  _previous_data (fst (execute (answering 200) self (Some cur) 0)) = Some cur.
Proof.
  cbv zeta.
  destruct (first_pass_is_silent (answering 200)
              (StateMonitor_init default_power_delim (Some slack))
              (Some (reading (float_lit 0 0) (float_lit 0 0) (VInt 1) (VInt 13)))
              0%nat eq_refl) as (Hn & Hd & Hs).
  split; [exact Hn|]. split; [exact Hd|].
  exact (proj2 (Hs _ eq_refl)).
Defined.

(** ** Power drops *)

Section PowerDrops.

Variable env : environment.

Lemma power_drops_notices_shape self input_data n :
  notices (emitted (power_drops env self input_data n)) = [] \/
  exists a b, notices (emitted (power_drops env self input_data n)) = [PowerHasDropped a b].
Proof.
  destruct (power_drops_cases env self input_data n)
    as [[-> _]|(cur & prev & p_now & p_pre & _ & _ & _ & _ & _ & ->)]; [left; reflexivity|].
  right. rewrite fired_notices. eauto.
Qed.

Lemma sensor_communication_notices_shape self input_data n :
  notices (emitted (sensor_communication env self input_data n)) = [] \/
  notices (emitted (sensor_communication env self input_data n)) = [NoCommunication].
Proof.
  destruct (sensor_communication_cases env self input_data n)
    as [[-> _]|(comm_now & comm_pre & _ & _ & _ & _ & ->)]; [left; reflexivity|].
  right. apply fired_notices.
Qed.

Lemma led_state_notices_shape self input_data n :
  notices (emitted (led_state env self input_data n)) = [] \/
  exists v, notices (emitted (led_state env self input_data n)) = [CriticalFailure v].
Proof.
  destruct (led_state_cases env self input_data n)
    as [[-> _]|(state_now & state_pre & _ & _ & _ & _ & ->)]; [left; reflexivity|].
  right. rewrite fired_notices. eauto.
Qed.

(** Only the first block logs power-drop messages. *)
Lemma pass_power_drop_count self cur prev n :
  _previous_data self = Some prev ->
  power_drop_count (emitted (snd (execute env self (Some cur) n))) =
  length (notices (emitted (power_drops env self (Some cur) n))).
Proof.
  intros Hprev. unfold power_drop_count.
  rewrite (execute_baselined env self cur prev n Hprev). cbn [snd emitted].
  rewrite (try_statement_notices env self cur prev n Hprev). cbv zeta.
  set (r1 := power_drops env self (Some cur) n).
  set (r2 := sensor_communication env self (Some cur) (requests r1)).
  set (r3 := led_state env self (Some cur) (requests r2)).
  destruct (power_drops_notices_shape self (Some cur) n) as [E1|(a & b & E1)];
    fold r1 in E1; rewrite E1;
    (destruct (result r1); [|reflexivity]);
    (destruct (sensor_communication_notices_shape self (Some cur) (requests r1)) as [E2|E2];
     fold r2 in E2; rewrite E2);
    (destruct (result r2); [|reflexivity]);
    (destruct (led_state_notices_shape self (Some cur) (requests r2)) as [E3|(v & E3)];
     fold r3 in E3; rewrite E3); reflexivity.
Qed.

(** A pass after a sample whose power is below the delimiter logs no
    power drop. *)
Lemma power_drops_after_below self cur prev n :
  _previous_data self = Some prev ->
  below (power_delim self) prev ->
  emitted (power_drops env self (Some cur) n) = [].
Proof.
  intros Hprev (p & Hp & Hlt).
  destruct (power_drops_cases env self (Some cur) n)
    as [[H _]|(cur' & prev' & p_now & p_pre & _ & Hp' & _ & Hpre & [_ Hgt] & _)]; [exact H|].
  exfalso. rewrite Hprev in Hp'. injection Hp' as <-.
  rewrite Hp in Hpre. injection Hpre as <-.
  exact (py_lt_not_gt _ _ Hlt Hgt).
Qed.

Lemma passes_below rest : forall self prev n,
  _previous_data self = Some prev ->
  below (power_delim self) prev ->
  Forall (below (power_delim self)) rest ->
  map power_drop_count (passes env self rest n) = repeat 0%nat (length rest).
Proof.
  induction rest as [|cur rest IH]; intros self prev n Hprev Hbelow Hrest; [reflexivity|].
  inversion Hrest as [|? ? Hcur Hrest']; subst.
  cbn [passes].
  pose proof (pass_power_drop_count self cur prev n Hprev) as Hcount.
  rewrite (power_drops_after_below self cur prev n Hprev Hbelow) in Hcount.
  rewrite (execute_baselined env self cur prev n Hprev) in *.
  cbn [snd emitted requests] in *. cbn [map length repeat].
  rewrite Hcount. f_equal.
  apply (IH (set_previous_data self (Some cur)) cur); auto.
Qed.

Lemma power_drops_deliveries_shape self input_data n :
  deliveries (emitted (power_drops env self input_data n)) = [] \/
  exists a b, deliveries (emitted (power_drops env self input_data n)) =
              [construct_message env (PowerHasDropped a b)].
Proof.
  destruct (power_drops_cases env self input_data n)
    as [[-> _]|(cur & prev & p_now & p_pre & _ & _ & _ & _ & _ & ->)]; [left; reflexivity|].
  rewrite fired_deliveries. destruct (sender self); eauto.
Qed.

Lemma sensor_communication_deliveries_shape self input_data n :
  deliveries (emitted (sensor_communication env self input_data n)) = [] \/
  deliveries (emitted (sensor_communication env self input_data n)) =
  [construct_message env NoCommunication].
Proof.
  destruct (sensor_communication_cases env self input_data n)
    as [[-> _]|(comm_now & comm_pre & _ & _ & _ & _ & ->)]; [left; reflexivity|].
  rewrite fired_deliveries. destruct (sender self); eauto.
Qed.

Lemma led_state_deliveries_shape self input_data n :
  deliveries (emitted (led_state env self input_data n)) = [] \/
  exists v, deliveries (emitted (led_state env self input_data n)) =
            [construct_message env (CriticalFailure v)].
Proof.
  destruct (led_state_cases env self input_data n)
    as [[-> _]|(state_now & state_pre & _ & _ & _ & _ & ->)]; [left; reflexivity|].
  rewrite fired_deliveries. destruct (sender self); eauto.
Qed.

(** Only the first block sends power-drop messages. *)
Lemma pass_power_drop_requests self cur prev n :
  _previous_data self = Some prev ->
  power_drop_requests (emitted (snd (execute env self (Some cur) n))) =
  length (deliveries (emitted (power_drops env self (Some cur) n))).
Proof.
  intros Hprev. unfold power_drop_requests.
  rewrite (execute_baselined env self cur prev n Hprev). cbn [snd emitted].
  rewrite (try_statement_deliveries env self cur prev n Hprev). cbv zeta.
  set (r1 := power_drops env self (Some cur) n).
  set (r2 := sensor_communication env self (Some cur) (requests r1)).
  set (r3 := led_state env self (Some cur) (requests r2)).
  destruct (power_drops_deliveries_shape self (Some cur) n) as [E1|(a & b & E1)];
    fold r1 in E1; rewrite E1;
    (destruct (result r1); [|reflexivity]);
    (destruct (sensor_communication_deliveries_shape self (Some cur) (requests r1))
       as [E2|E2]; fold r2 in E2; rewrite E2);
    (destruct (result r2); [|reflexivity]);
    (destruct (led_state_deliveries_shape self (Some cur) (requests r2)) as [E3|(v & E3)];
     fold r3 in E3; rewrite E3); reflexivity.
Qed.

Lemma passes_below_requests rest : forall self prev n,
  _previous_data self = Some prev ->
  below (power_delim self) prev ->
  Forall (below (power_delim self)) rest ->
  map power_drop_requests (passes env self rest n) = repeat 0%nat (length rest).
Proof.
  induction rest as [|cur rest IH]; intros self prev n Hprev Hbelow Hrest; [reflexivity|].
  inversion Hrest as [|? ? Hcur Hrest']; subst.
  cbn [passes].
  pose proof (pass_power_drop_requests self cur prev n Hprev) as Hcount.
  rewrite (power_drops_after_below self cur prev n Hprev Hbelow) in Hcount.
  rewrite (execute_baselined env self cur prev n Hprev) in *.
  cbn [snd emitted requests] in *. cbn [map length repeat].
  rewrite Hcount. f_equal.
  apply (IH (set_previous_data self (Some cur)) cur); auto.
Qed.

End PowerDrops.

(** The power of float readings is a float, and a float is always
    formatted. *)
Lemma float_power_is_formatted (data : sample) f g :
  data !! "adc_vl_f" = Some {| value := VFloat f |} ->
  data !! "adc_il_f" = Some {| value := VFloat g |} ->
  exists p, power data = Return (VFloat p) /\ format_2f (VFloat p) = Return tt.
Proof.
  intros Hf Hg. exists (SFmul float_prec float_emax f g).
  unfold power, subscript_value. rewrite Hf, Hg. split; reflexivity.
Qed.

Lemma power_drops_silent_or_crossing env self cur prev p_now p_pre n :
  _previous_data self = Some prev ->
  power prev = Return p_pre -> power cur = Return p_now ->
  crossing p_now p_pre (power_delim self) \/
  emitted (power_drops env self (Some cur) n) = [].
Proof.
  intros Hprev Hpre Hnow.
  destruct (power_drops_cases env self (Some cur) n)
    as [[H _]|(cur' & prev' & p_now' & p_pre' & Hc & Hp & Hnow' & Hpre' & Hx & _)];
    [right; exact H|].
  left. injection Hc as <-. rewrite Hprev in Hp. injection Hp as <-.
  rewrite Hnow in Hnow'. injection Hnow' as <-.
  rewrite Hpre in Hpre'. injection Hpre' as <-. exact Hx.
Qed.

Lemma no_power_drop_elsewhere env self cur prev n a b :
  _previous_data self = Some prev ->
  emitted (power_drops env self (Some cur) n) = [] ->
  ~ In (Log (Info (PowerHasDropped a b))) (emitted (snd (execute env self (Some cur) n))) /\
  ~ In (Urlopen (construct_message env (PowerHasDropped a b)))
       (emitted (snd (execute env self (Some cur) n))).
Proof.
  intros Hprev Hsilent. split; intros H.
  - apply notices_In in H.
    destruct (pass_notices_cases env self cur prev n Hprev _ H)
      as [H1|[(u & _ & H2)|(u & u' & _ & _ & H3)]].
    + rewrite Hsilent in H1. destruct H1.
    + apply sensor_communication_notices in H2. discriminate.
    + apply led_state_notices in H3 as [v H3]. discriminate.
  - apply deliveries_In in H.
    destruct (pass_deliveries_cases env self cur prev n Hprev _ H)
      as [H1|[(u & _ & H2)|(u & u' & _ & _ & H3)]].
    + rewrite Hsilent in H1. destruct H1.
    + apply sensor_communication_deliveries in H2. discriminate.
    + apply led_state_deliveries in H3 as [v H3]. discriminate.
Qed.

(** C1, as the code has it. Both samples hold [adc_vl_f] and [adc_il_f]
    with numbers whose products, the powers, are computed.  When
    [power_now < power_delim] and [power_previous > power_delim] and the
    two powers can be formatted with two decimals (always so for floats;
    an int must be within the range of a float), the power-drop rule fires:
    its message is logged and handed to the sender.  It fires only then,
    and on any other pass no power-drop message is logged and none is
    requested.  Hence, when the power then stays below the delimiter over
    the following passes, the message is logged once and requested once,
    on the crossing pass. *)
Theorem power_drop_rule env self prev cur rest p_pre p_now n :
  _previous_data self = Some prev ->
  power prev = Return p_pre -> power cur = Return p_now ->
  let l := emitted (snd (execute env self (Some cur) n)) in
  let formatted := format_2f p_pre = Return tt /\ format_2f p_now = Return tt in
  (crossing p_now p_pre (power_delim self) -> formatted ->
   fires env self (PowerHasDropped p_pre p_now) l) /\
  (fires env self (PowerHasDropped p_pre p_now) l ->
   crossing p_now p_pre (power_delim self)) /\
  (~ crossing p_now p_pre (power_delim self) ->
   forall a b,
     ~ In (Log (Info (PowerHasDropped a b))) l /\
     ~ In (Urlopen (construct_message env (PowerHasDropped a b))) l) /\
  (crossing p_now p_pre (power_delim self) -> formatted ->
   Forall (below (power_delim self)) rest ->
   map power_drop_count (passes env self (cur :: rest) n) =
   1%nat :: repeat 0%nat (length rest) /\
   map power_drop_requests (passes env self (cur :: rest) n) =
   match sender self with Some _ => 1%nat | None => 0%nat end
   :: repeat 0%nat (length rest)).
Proof.
  intros Hprev Hpre Hnow l formatted.
  assert (Hfire : crossing p_now p_pre (power_delim self) -> formatted ->
                  power_drops env self (Some cur) n =
                  after [Log (Info (PowerHasDropped p_pre p_now))]
                        (send_message env self (PowerHasDropped p_pre p_now) n)).
  { intros Hx [Fpre Fnow]. apply (power_drops_fires env self cur prev); assumption. }
  assert (Hoff : ~ crossing p_now p_pre (power_delim self) ->
                 emitted (power_drops env self (Some cur) n) = []).
  { intros Hnx.
    destruct (power_drops_silent_or_crossing env self cur prev p_now p_pre n Hprev Hpre Hnow)
      as [Hx|Hsilent]; [contradiction | exact Hsilent]. }
  split; [|split; [|split]].
  - intros Hx Hf. specialize (Hfire Hx Hf). split.
    + apply (pass_includes_power_drops env self cur prev n Hprev).
      rewrite Hfire. left. reflexivity.
    + intros Hsender.
      apply (pass_includes_power_drops env self cur prev n Hprev).
      apply deliveries_In. rewrite Hfire, fired_deliveries.
      destruct (sender self); [left; reflexivity | contradiction].
  - intros [Hlog _].
    destruct (power_drops_silent_or_crossing env self cur prev p_now p_pre n Hprev Hpre Hnow)
      as [Hx|Hsilent]; [exact Hx|].
    destruct (no_power_drop_elsewhere env self cur prev n p_pre p_now Hprev Hsilent)
      as [Hno _].
    contradiction.
  - intros Hnx a b.
    exact (no_power_drop_elsewhere env self cur prev n a b Hprev (Hoff Hnx)).
  - intros Hx Hf Hrest. specialize (Hfire Hx Hf).
    cbn [passes].
    pose proof (pass_power_drop_count env self cur prev n Hprev) as Hcount.
    pose proof (pass_power_drop_requests env self cur prev n Hprev) as Hsent.
    rewrite Hfire, fired_notices in Hcount.
    rewrite Hfire, fired_deliveries in Hsent.
    rewrite (execute_baselined env self cur prev n Hprev) in *.
    cbn [snd emitted requests] in *. cbn [map].
    rewrite Hcount, Hsent. cbn [length].
    assert (Hbelow : below (power_delim self) cur)
      by (exists p_now; split; [exact Hnow | apply Hx]).
    split; f_equal.
    + apply (passes_below env rest (set_previous_data self (Some cur)) cur); auto.
    + destruct (sender self); reflexivity.
    + apply (passes_below_requests env rest (set_previous_data self (Some cur)) cur); auto.
Qed.

(** A crossing between two samples of int readings, the previous power
    being [2^1024]: the power fell from above the delimiter to below it,
    the f-string cannot format the previous power ([OverflowError]), and
    neither a log record of the rule nor a request is made. *)
Lemma power_drop_beyond_float_range :
  let prev := reading (VInt (2 ^ 1024)) (VInt 1) (VInt 0) (VInt 5) in
  let cur := reading (VInt 0) (VInt 0) (VInt 0) (VInt 5) in
  let self := monitor_after (Some slack) prev in
  let l := emitted (snd (execute (answering 200) self (Some cur) 0)) in
  power prev = Return (VInt (2 ^ 1024)) /\
  power cur = Return (VInt 0) /\
  crossing (VInt 0) (VInt (2 ^ 1024)) (power_delim self) /\
  ~ fires (answering 200) self (PowerHasDropped (VInt (2 ^ 1024)) (VInt 0)) l /\
  l = error_report OverflowError cur prev.
Proof.
  cbv zeta.
  assert (H : emitted (snd (execute (answering 200)
                 (monitor_after (Some slack)
                    (reading (VInt (2 ^ 1024)) (VInt 1) (VInt 0) (VInt 5)))
                 (Some (reading (VInt 0) (VInt 0) (VInt 0) (VInt 5))) 0)) =
              error_report OverflowError
                (reading (VInt 0) (VInt 0) (VInt 0) (VInt 5))
                (reading (VInt (2 ^ 1024)) (VInt 1) (VInt 0) (VInt 5)))
    by (vm_compute; reflexivity).
  split; [vm_compute; reflexivity|].
  split; [vm_compute; reflexivity|].
  split; [split; vm_compute; reflexivity|].
  split; [|exact H].
  intros [Hlog _]. rewrite H in Hlog.
  repeat (destruct Hlog as [Hlog|Hlog]; [discriminate|]). destruct Hlog.
Qed.

(** The rule on the samples of powers 2, then 0.5, then 0.375 and 0.25, with
    the default delimiter 1. *)
Lemma power_drop_rule_witness :
  let prev := reading (float_lit 2 0) (float_lit 1 0) (VInt 0) (VInt 5) in
  let cur := reading (float_lit 1 (-1)) (float_lit 1 0) (VInt 0) (VInt 5) in
  let rest := [reading (float_lit 3 (-1)) (float_lit 1 (-2)) (VInt 0) (VInt 5);
               reading (float_lit 1 (-2)) (float_lit 1 0) (VInt 0) (VInt 5)] in
  let self := monitor_after (Some slack) prev in
  fires (answering 200) self (PowerHasDropped (float_lit 2 0) (float_lit 1 (-1)))
        (emitted (snd (execute (answering 200) self (Some cur) 0))) /\
  map power_drop_count (passes (answering 200) self (cur :: rest) 0) = [1; 0; 0]%nat /\
  map power_drop_requests (passes (answering 200) self (cur :: rest) 0) = [1; 0; 0]%nat.
Proof.
  cbv zeta.
  pose proof (power_drop_rule (answering 200)
    (monitor_after (Some slack)
       (reading (float_lit 2 0) (float_lit 1 0) (VInt 0) (VInt 5)))
    (reading (float_lit 2 0) (float_lit 1 0) (VInt 0) (VInt 5))
    (reading (float_lit 1 (-1)) (float_lit 1 0) (VInt 0) (VInt 5))
    [reading (float_lit 3 (-1)) (float_lit 1 (-2)) (VInt 0) (VInt 5);
     reading (float_lit 1 (-2)) (float_lit 1 0) (VInt 0) (VInt 5)]
    (float_lit 2 0) (float_lit 1 (-1)) 0%nat
    eq_refl eq_refl eq_refl) as (Hif & _ & _ & Hrun).
  assert (Hx : crossing (float_lit 1 (-1)) (float_lit 2 0) default_power_delim)
    by (split; reflexivity).
  assert (Hf : format_2f (float_lit 2 0) = Return tt /\
               format_2f (float_lit 1 (-1)) = Return tt)
    by (split; reflexivity).
  split.
  - apply Hif; [exact Hx | exact Hf].
  - apply Hrun; [exact Hx | exact Hf |].
    repeat constructor.
    + exists (float_lit 3 (-3)). split; reflexivity.
    + exists (float_lit 1 (-2)). split; reflexivity.
Defined.

(** C10. Both comparisons of the power-drop rule are strict: when the
    current power equals the delimiter, or the previous power equals it,
    the rule does not fire: no power-drop message is logged or sent. *)
Theorem power_at_delimiter_is_silent env self prev cur p_pre p_now n :
  _previous_data self = Some prev ->
  power prev = Return p_pre -> power cur = Return p_now ->
  py_eq p_now (power_delim self) = true \/ py_eq p_pre (power_delim self) = true ->
  let l := emitted (snd (execute env self (Some cur) n)) in
  emitted (power_drops env self (Some cur) n) = [] /\
  power_drop_count l = 0%nat /\
  forall a b,
    ~ In (Log (Info (PowerHasDropped a b))) l /\
    ~ In (Urlopen (construct_message env (PowerHasDropped a b))) l.
Proof.
  intros Hprev Hpre Hnow Heq l.
  assert (Hsilent : emitted (power_drops env self (Some cur) n) = []).
  { destruct (power_drops_silent_or_crossing env self cur prev p_now p_pre n Hprev Hpre Hnow)
      as [[Hlt Hgt]|H]; [exfalso|exact H].
    destruct Heq as [Heq|Heq].
    - exact (py_eq_not_lt _ _ Heq Hlt).
    - exact (py_eq_not_gt _ _ Heq Hgt). }
  split; [exact Hsilent|]. split.
  - unfold l. rewrite (pass_power_drop_count env self cur prev n Hprev), Hsilent.
    reflexivity.
  - intros a b. exact (no_power_drop_elsewhere env self cur prev n a b Hprev Hsilent).
Qed.

(** A fall from 2 to exactly 1, and a fall from exactly 1 to 0.5, with the
    delimiter 1. *)
Lemma power_at_delimiter_is_silent_witness :
  let two := reading (float_lit 2 0) (float_lit 1 0) (VInt 0) (VInt 5) in
  let one := reading (float_lit 1 0) (float_lit 1 0) (VInt 0) (VInt 5) in
  let half := reading (float_lit 1 (-1)) (float_lit 1 0) (VInt 0) (VInt 5) in
  power_drop_count
    (emitted (snd (execute (answering 200) (monitor_after (Some slack) two) (Some one) 0)))
  = 0%nat /\
  power_drop_count
    (emitted (snd (execute (answering 200) (monitor_after (Some slack) one) (Some half) 0)))
  = 0%nat.
Proof.
  cbv zeta. split.
  - refine (proj1 (proj2 (power_at_delimiter_is_silent (answering 200)
      (monitor_after (Some slack) (reading (float_lit 2 0) (float_lit 1 0) (VInt 0) (VInt 5)))
      (reading (float_lit 2 0) (float_lit 1 0) (VInt 0) (VInt 5))
      (reading (float_lit 1 0) (float_lit 1 0) (VInt 0) (VInt 5))
      (float_lit 2 0) (float_lit 1 0) 0%nat eq_refl eq_refl eq_refl _))).
    left. reflexivity.
  - refine (proj1 (proj2 (power_at_delimiter_is_silent (answering 200)
      (monitor_after (Some slack) (reading (float_lit 1 0) (float_lit 1 0) (VInt 0) (VInt 5)))
      (reading (float_lit 1 0) (float_lit 1 0) (VInt 0) (VInt 5))
      (reading (float_lit 1 (-1)) (float_lit 1 0) (VInt 0) (VInt 5))
      (float_lit 1 0) (float_lit 1 (-1)) 0%nat eq_refl eq_refl eq_refl _))).
    right. reflexivity.
Defined.

(** ** Sensor communication *)

(** Off the edge, no effect of the pass carries the message. *)
Lemma no_communication_off_edge env self cur prev comm_now comm_pre n :
  _previous_data self = Some prev ->
  subscript_value (Some cur) "ping" = Return comm_now ->
  subscript_value (Some prev) "ping" = Return comm_pre ->
  ~ (truthy comm_now = true /\ truthy comm_pre = false) ->
  emitted (sensor_communication env self (Some cur)
             (requests (power_drops env self (Some cur) n))) = [].
Proof.
  intros Hprev Hnow Hpre Hoff.
  destruct (sensor_communication_cases env self (Some cur)
              (requests (power_drops env self (Some cur) n)))
    as [[E _]|(now & pre & Hnow' & Hpre' & Tnow & Tpre & _)]; [exact E|].
  exfalso. apply Hoff.
  rewrite Hnow in Hnow'. injection Hnow' as <-.
  rewrite Hprev, Hpre in Hpre'. injection Hpre' as <-. auto.
Qed.

Lemma no_communication_elsewhere env self cur prev n :
  _previous_data self = Some prev ->
  emitted (sensor_communication env self (Some cur)
             (requests (power_drops env self (Some cur) n))) = [] ->
  ~ In (Log (Info NoCommunication)) (emitted (snd (execute env self (Some cur) n))) /\
  ~ In (Urlopen (construct_message env NoCommunication))
       (emitted (snd (execute env self (Some cur) n))).
Proof.
  intros Hprev Hsilent. split; intros H.
  - apply notices_In in H.
    destruct (pass_notices_cases env self cur prev n Hprev _ H)
      as [H1|[(u & _ & H2)|(u & u' & _ & _ & H3)]].
    + apply power_drops_notices in H1 as (a & b & H1). discriminate.
    + rewrite Hsilent in H2. destruct H2.
    + apply led_state_notices in H3 as [v H3]. discriminate.
  - apply deliveries_In in H.
    destruct (pass_deliveries_cases env self cur prev n Hprev _ H)
      as [H1|[(u & _ & H2)|(u & u' & _ & _ & H3)]].
    + apply power_drops_deliveries in H1 as (a & b & H1). discriminate.
    + rewrite Hsilent in H2. destruct H2.
    + apply led_state_deliveries in H3 as [v H3]. discriminate.
Qed.

(** C4, as the code has it. Both samples hold [ping].  When the current
    ping is truthy (nonzero) and the previous one is falsy (zero), and the
    power-drop block before it has returned, the communication-loss rule
    fires: its message is logged and handed to the sender.  It fires only
    on that edge; on any other pass (unreachable persisting, recovery,
    reachable throughout) the message is neither logged nor requested. *)
Theorem communication_loss_rule env self prev cur comm_now comm_pre n :
  _previous_data self = Some prev ->
  subscript_value (Some cur) "ping" = Return comm_now ->
  subscript_value (Some prev) "ping" = Return comm_pre ->
  let l := emitted (snd (execute env self (Some cur) n)) in
  let edge := truthy comm_now = true /\ truthy comm_pre = false in
  (edge -> (exists u, result (power_drops env self (Some cur) n) = Return u) ->
   fires env self NoCommunication l) /\
  (fires env self NoCommunication l -> edge) /\
  (~ edge ->
   ~ In (Log (Info NoCommunication)) l /\
   ~ In (Urlopen (construct_message env NoCommunication)) l).
Proof.
  intros Hprev Hnow Hpre l edge.
  set (k := requests (power_drops env self (Some cur) n)).
  assert (Hoff : ~ edge ->
                 ~ In (Log (Info NoCommunication)) l /\
                 ~ In (Urlopen (construct_message env NoCommunication)) l).
  { intros Hne. apply (no_communication_elsewhere env self cur prev n Hprev).
    exact (no_communication_off_edge env self cur prev comm_now comm_pre n
             Hprev Hnow Hpre Hne). }
  split; [|split; [|exact Hoff]].
  - intros [Tnow Tpre] [u H1].
    assert (Hfire : sensor_communication env self (Some cur) k =
                    after [Log (Info NoCommunication)]
                          (send_message env self NoCommunication k)).
    { apply (sensor_communication_fires env self (Some cur) comm_now comm_pre);
        auto. rewrite Hprev. exact Hpre. }
    split.
    + apply (pass_includes_sensor_communication env self cur prev n Hprev u _ H1).
      fold k. rewrite Hfire. left. reflexivity.
    + intros Hsender.
      apply (pass_includes_sensor_communication env self cur prev n Hprev u _ H1).
      fold k. apply deliveries_In. rewrite Hfire, fired_deliveries.
      destruct (sender self); [left; reflexivity | contradiction].
  - intros [Hlog _]. unfold edge.
    destruct (truthy comm_now) eqn:Tnow; destruct (truthy comm_pre) eqn:Tpre;
      try (split; reflexivity);
      exfalso; apply (proj1 (Hoff ltac:(unfold edge; rewrite ?Tnow, ?Tpre;
                                         intros [? ?]; discriminate))); exact Hlog.
Qed.

(** Two samples that hold [ping] only, going from 0 to 1: the pass stops
    at the power-drop block ([KeyError]) and the rule is never reached. *)
Lemma communication_loss_not_reached :
  let prev := sample_of [("ping", VInt 0)] in
  let cur := sample_of [("ping", VInt 1)] in
  let self := monitor_after (Some slack) prev in
  let l := emitted (snd (execute (answering 200) self (Some cur) 0)) in
  subscript_value (Some cur) "ping" = Return (VInt 1) /\
  subscript_value (Some prev) "ping" = Return (VInt 0) /\
  truthy (VInt 1) = true /\ truthy (VInt 0) = false /\
  ~ fires (answering 200) self NoCommunication l /\
  l = error_report (KeyError "adc_vl_f") cur prev.
Proof.
  cbv zeta.
  assert (H : emitted (snd (execute (answering 200)
                 (monitor_after (Some slack) (sample_of [("ping", VInt 0)]))
                 (Some (sample_of [("ping", VInt 1)])) 0)) =
              error_report (KeyError "adc_vl_f")
                (sample_of [("ping", VInt 1)]) (sample_of [("ping", VInt 0)]))
    by (vm_compute; reflexivity).
  do 4 (split; [vm_compute; reflexivity|]).
  split; [|exact H].
  intros [Hlog _]. rewrite H in Hlog.
  repeat (destruct Hlog as [Hlog|Hlog]; [discriminate|]). destruct Hlog.
Qed.

(** Powers stay at 2; ping goes from 0 to 1. *)
Lemma communication_loss_rule_witness :
  let prev := reading (float_lit 2 0) (float_lit 1 0) (VInt 0) (VInt 5) in
  let cur := reading (float_lit 2 0) (float_lit 1 0) (VInt 1) (VInt 5) in
  let self := monitor_after (Some slack) prev in
  fires (answering 200) self NoCommunication
        (emitted (snd (execute (answering 200) self (Some cur) 0))).
Proof.
  cbv zeta.
  apply (communication_loss_rule (answering 200)
    (monitor_after (Some slack)
       (reading (float_lit 2 0) (float_lit 1 0) (VInt 0) (VInt 5)))
    (reading (float_lit 2 0) (float_lit 1 0) (VInt 0) (VInt 5))
    (reading (float_lit 2 0) (float_lit 1 0) (VInt 1) (VInt 5))
    (VInt 1) (VInt 0) 0%nat eq_refl eq_refl eq_refl).
  - split; reflexivity.
  - exists tt. reflexivity.
Defined.

(** ** LED state *)






(** ** One [try] statement for the three rules *)

(** C6, as the code has it. The three rules sit in one [try] statement and
    run in the order power drop, sensor communication, LED state.  When a
    block raises, the blocks before it have run, the blocks after it are
    not evaluated, and the handler logs the error with both samples; no
    exception leaves [execute] (the samples being mappings). *)
Theorem rules_share_one_try env self prev cur n :
  _previous_data self = Some prev ->
  let r1 := power_drops env self (Some cur) n in
  let r2 := sensor_communication env self (Some cur) (requests r1) in
  let r3 := led_state env self (Some cur) (requests r2) in
  let out := snd (execute env self (Some cur) n) in
  result out = Return (Some cur) /\
  (forall e, result r1 = Raise e ->
     emitted out = emitted r1 ++ error_report e cur prev) /\
  (forall u e, result r1 = Return u -> result r2 = Raise e ->
     emitted out = emitted r1 ++ emitted r2 ++ error_report e cur prev) /\
  (forall u u' e, result r1 = Return u -> result r2 = Return u' -> result r3 = Raise e ->
     emitted out = emitted r1 ++ emitted r2 ++ emitted r3 ++ error_report e cur prev) /\
  (forall u u' u'', result r1 = Return u -> result r2 = Return u' ->
     result r3 = Return u'' ->
     emitted out = emitted r1 ++ emitted r2 ++ emitted r3).
Proof.
  intros Hprev r1 r2 r3 out. unfold out.
  rewrite (execute_baselined env self cur prev n Hprev). cbn [snd result emitted].
  split; [reflexivity|]. repeat split.
  - intros e H1. rewrite (try_statement_power_raises env self cur prev n Hprev e H1).
    reflexivity.
  - intros u e H1 H2.
    rewrite (try_statement_ping_raises env self cur prev n Hprev u e H1 H2).
    reflexivity.
  - intros u u' e H1 H2 H3.
    rewrite (try_statement_led_raises env self cur prev n Hprev u u' e H1 H2 H3).
    reflexivity.
  - intros u u' u'' H1 H2 H3.
    rewrite (try_statement_no_raise env self cur n u u' u'' H1 H2 H3).
    reflexivity.
Qed.

(** Samples without [adc_vl_f] whose ping goes from 0 to 1 and whose LED
    code goes from 5 to 12: evaluated on their own the two later blocks
    fire, but the pass stops at the [KeyError] of the first block. *)
Lemma missing_key_skips_later_rules :
  let prev := sample_of [("ping", VInt 0); ("led_state", VInt 5)] in
  let cur := sample_of [("ping", VInt 1); ("led_state", VInt 12)] in
  let self := monitor_after None prev in
  let env := answering 200 in
  result (power_drops env self (Some cur) 0%nat) = Raise (KeyError "adc_vl_f") /\
  notices (emitted (sensor_communication env self (Some cur) 0%nat)) = [NoCommunication] /\
  notices (emitted (led_state env self (Some cur) 0%nat)) = [CriticalFailure (VInt 12)] /\
  notices (emitted (snd (execute env self (Some cur) 0%nat))) = [] /\
  emitted (snd (execute env self (Some cur) 0%nat)) =
  error_report (KeyError "adc_vl_f") cur prev.
Proof. cbv zeta. repeat split; vm_compute; reflexivity. Qed.

(** A pass whose LED block fails ([led_state] missing) after the first two
    blocks have fired. *)
Lemma rules_share_one_try_witness :
  let prev := sample_of [("adc_vl_f", float_lit 2 0); ("adc_il_f", float_lit 1 0);
                         ("ping", VInt 0)] in
  let cur := sample_of [("adc_vl_f", float_lit 1 (-1)); ("adc_il_f", float_lit 1 0);
                        ("ping", VInt 1)] in
  let self := monitor_after None prev in
  let env := answering 200 in
  result (snd (execute env self (Some cur) 0)) = Return (Some cur) /\
  emitted (snd (execute env self (Some cur) 0)) =
  [Log (Info (PowerHasDropped (float_lit 2 0) (float_lit 1 (-1))));
   Log (Info NoCommunication)] ++ error_report (KeyError "led_state") cur prev.
Proof.
  cbv zeta.
  pose proof (rules_share_one_try (answering 200)
    (monitor_after None (sample_of [("adc_vl_f", float_lit 2 0);
                                    ("adc_il_f", float_lit 1 0); ("ping", VInt 0)]))
    (sample_of [("adc_vl_f", float_lit 2 0); ("adc_il_f", float_lit 1 0);
                ("ping", VInt 0)])
    (sample_of [("adc_vl_f", float_lit 1 (-1)); ("adc_il_f", float_lit 1 0);
                ("ping", VInt 1)])
    0%nat eq_refl) as (Hret & _ & _ & Hled & _).
  split; [exact Hret|].
  exact (Hled tt tt (KeyError "led_state") eq_refl eq_refl eq_refl).
Defined.

(** ** Sending *)

Lemma stops_nil env s cur prev k : stops_at_failed_send env s cur prev k [].
Proof. intros i _. cbn. repeat split; lia. Qed.

Lemma stops_error_report env s cur prev k e :
  stops_at_failed_send env s cur prev k (error_report e cur prev).
Proof. intros i _. cbn. repeat split; lia. Qed.

(** One block, then the rest of the pass. *)
Lemma stops_step env s cur prev k (r : run unit) (rest : list effect) :
  (emitted r = [] /\ requests r = k) \/
  (exists msg, r = after [Log (Info msg)] (send env s (construct_message env msg) k)) ->
  (forall u, result r = Return u -> stops_at_failed_send env s cur prev (requests r) rest) ->
  stops_at_failed_send env s cur prev k
    (emitted r ++ match result r with
                  | Return _ => rest
                  | Raise e => error_report e cur prev
                  end).
Proof.
  intros [[E Q]|(msg & ->)] Hrest.
  - rewrite E. cbn [app].
    destruct (result r) as [u|e] eqn:R; [|apply stops_error_report].
    rewrite <- Q. exact (Hrest u eq_refl).
  - set (data := construct_message env msg) in *.
    destruct (send_cases env s data k)
      as [(_ & Hok & E)|[(status & _ & _ & _ & Hok & E)|(e & Hbad & E)]];
      rewrite E in *; cbn [after result emitted requests app] in *.
    + intros [|i] Hi; [rewrite Nat.add_0_r in Hi; congruence|].
      rewrite Nat.add_succ_r in Hi. change (S (k + i)) with (S k + i)%nat in Hi.
      destruct (Hrest tt eq_refl i Hi) as (Hd & Hn & Hlast).
      cbn [deliveries notices length]. repeat split; try lia.
      intros Hlen. injection Hlen as Hlen.
      destruct (Hlast Hlen) as (pre & msg' & e & -> & Hres).
      exists (Log (Info msg) :: Urlopen data :: pre), msg', e.
      split; [reflexivity|].
      rewrite Nat.add_succ_r. exact Hres.
    + intros [|i] Hi; [rewrite Nat.add_0_r in Hi; congruence|].
      rewrite Nat.add_succ_r in Hi. change (S (k + i)) with (S k + i)%nat in Hi.
      destruct (Hrest tt eq_refl i Hi) as (Hd & Hn & Hlast).
      cbn [deliveries notices length]. repeat split; try lia.
      intros Hlen. injection Hlen as Hlen.
      destruct (Hlast Hlen) as (pre & msg' & e & -> & Hres).
      exists (Log (Info msg) :: Urlopen data :: Log (Warning (SendingFailed data)) :: pre),
             msg', e.
      split; [reflexivity|].
      rewrite Nat.add_succ_r. exact Hres.
    + intros i Hi. cbn [deliveries notices length error_report]. repeat split; try lia.
      intros Hlen. injection Hlen as <-.
      exists [Log (Info msg)], msg, e. split; [reflexivity|].
      rewrite Nat.add_0_r. fold data. rewrite E. reflexivity.
Qed.

(** C7, as the code has it. The sends of one pass are not isolated from
    each other: when the request numbered [n + i] makes [send] raise, no
    request follows it in that pass and no further rule logs a message;
    [execute] catches the exception and logs it (the error report comes
    right after the failed request and ends the effects of the pass),
    stores the sample and returns its input. *)
Theorem failed_send_ends_the_pass env self s prev cur n i :
  _previous_data self = Some prev ->
  sender self = Some s ->
  send_raises env s (n + i) = true ->
  let out := execute env self (Some cur) n in
  result (snd out) = Return (Some cur) /\
  _previous_data (fst out) = Some cur /\
  (length (deliveries (emitted (snd out))) <= S i)%nat /\
  (length (notices (emitted (snd out))) <= S i)%nat /\
  (length (deliveries (emitted (snd out))) = S i ->
   exists pre msg e,
     emitted (snd out) =
     pre ++ [Urlopen (construct_message env msg)] ++ error_report e cur prev /\
     result (send env s (construct_message env msg) (n + i)%nat) = Raise e).
Proof.
  intros Hprev Hs Hfail out. unfold out.
  rewrite (execute_baselined env self cur prev n Hprev).
  cbn [fst snd result emitted _previous_data set_previous_data].
  split; [reflexivity|]. split; [reflexivity|].
  assert (Hfired : forall msg k,
            after [Log (Info msg)] (send_message env self msg k) =
            after [Log (Info msg)] (send env s (construct_message env msg) k)).
  { intros msg k. unfold send_message. rewrite Hs. reflexivity. }
  assert (Hstops : stops_at_failed_send env s cur prev n
                     (emitted (try_statement env self (Some cur) n))).
  { rewrite (try_statement_emitted env self cur prev n Hprev). cbv zeta.
    set (r1 := power_drops env self (Some cur) n).
    set (r2 := sensor_communication env self (Some cur) (requests r1)).
    set (r3 := led_state env self (Some cur) (requests r2)).
    apply stops_step.
    { destruct (power_drops_cases env self (Some cur) n)
        as [H|(? & ? & ? & ? & _ & _ & _ & _ & _ & H)]; [left; exact H|].
      right. eexists. fold r1 in H. rewrite H. apply Hfired. }
    intros _ _. apply stops_step.
    { destruct (sensor_communication_cases env self (Some cur) (requests r1))
        as [H|(? & ? & _ & _ & _ & _ & H)]; [left; exact H|].
      right. eexists. fold r2 in H. rewrite H. apply Hfired. }
    intros _ _.
    replace (emitted r3 ++ match result r3 with
                           | Return _ => []
                           | Raise e => error_report e cur prev
                           end)
      with (emitted r3 ++ match result r3 with
                          | Return _ => @nil effect
                          | Raise e => error_report e cur prev
                          end) by reflexivity.
    apply stops_step.
    { destruct (led_state_cases env self (Some cur) (requests r2))
        as [H|(? & ? & _ & _ & _ & _ & H)]; [left; exact H|].
      right. eexists. fold r3 in H. rewrite H. apply Hfired. }
    intros _ _. apply stops_nil. }
  exact (Hstops i Hfail).
Qed.

(** A pass in which the three rules would fire.  With a network that
    answers 200 the three messages are sent; when the first request raises,
    the messages of the two other rules are neither logged nor sent. *)
Lemma failed_send_skips_later_rules :
  let prev := reading (float_lit 2 0) (float_lit 1 0) (VInt 0) (VInt 5) in
  let cur := reading (float_lit 1 (-1)) (float_lit 1 0) (VInt 1) (VInt 12) in
  let self := monitor_after (Some slack) prev in
  let drop := PowerHasDropped (float_lit 2 0) (float_lit 1 (-1)) in
  deliveries (emitted (snd (execute (answering 200) self (Some cur) 0))) =
  [construct_message (answering 200) drop;
   construct_message (answering 200) NoCommunication;
   construct_message (answering 200) (CriticalFailure (VInt 12))] /\
  emitted (snd (execute unreachable self (Some cur) 0)) =
  [Log (Info drop); Urlopen (construct_message unreachable drop)]
  ++ error_report URLError cur prev /\
  ~ In (Log (Info NoCommunication)) (emitted (snd (execute unreachable self (Some cur) 0))) /\
  ~ In (Urlopen (construct_message unreachable NoCommunication))
       (emitted (snd (execute unreachable self (Some cur) 0))).
Proof.
  cbv zeta.
  assert (H : emitted (snd (execute unreachable
                 (monitor_after (Some slack)
                    (reading (float_lit 2 0) (float_lit 1 0) (VInt 0) (VInt 5)))
                 (Some (reading (float_lit 1 (-1)) (float_lit 1 0) (VInt 1) (VInt 12))) 0)) =
              [Log (Info (PowerHasDropped (float_lit 2 0) (float_lit 1 (-1))));
               Urlopen (construct_message unreachable
                          (PowerHasDropped (float_lit 2 0) (float_lit 1 (-1))))]
              ++ error_report URLError
                   (reading (float_lit 1 (-1)) (float_lit 1 0) (VInt 1) (VInt 12))
                   (reading (float_lit 2 0) (float_lit 1 0) (VInt 0) (VInt 5)))
    by (vm_compute; reflexivity).
  split; [vm_compute; reflexivity|].
  split; [exact H|].
  rewrite H. split; intros Hin;
    repeat (destruct Hin as [Hin|Hin]; [discriminate|]); destruct Hin.
Qed.

(** The first request of the pass raises: one message is logged and
    requested, not three. *)
Lemma failed_send_ends_the_pass_witness :
  let prev := reading (float_lit 2 0) (float_lit 1 0) (VInt 0) (VInt 5) in
  let cur := reading (float_lit 1 (-1)) (float_lit 1 0) (VInt 1) (VInt 12) in
  let out := execute unreachable (monitor_after (Some slack) prev) (Some cur) 0 in
  result (snd out) = Return (Some cur) /\
  _previous_data (fst out) = Some cur /\
  (length (deliveries (emitted (snd out))) <= 1)%nat /\
  (length (notices (emitted (snd out))) <= 1)%nat /\
  (length (deliveries (emitted (snd out))) = 1%nat ->
   exists pre msg e,
     emitted (snd out) =
     pre ++ [Urlopen (construct_message unreachable msg)] ++ error_report e cur prev /\
     result (send unreachable slack (construct_message unreachable msg) (0 + 0)%nat) = Raise e).
Proof.
  exact (failed_send_ends_the_pass unreachable
           (monitor_after (Some slack)
              (reading (float_lit 2 0) (float_lit 1 0) (VInt 0) (VInt 5)))
           slack
           (reading (float_lit 2 0) (float_lit 1 0) (VInt 0) (VInt 5))
           (reading (float_lit 1 (-1)) (float_lit 1 0) (VInt 1) (VInt 12))
           0%nat 0%nat eq_refl eq_refl eq_refl).
Defined.

Lemma within_2xx status :
  200 <= status < 300 -> (200 <=? status) && (status <? 300) = true.
Proof.
  intros H. apply andb_true_intro. split; [apply Z.leb_le | apply Z.ltb_lt]; lia.
Qed.

(** A status outside 200..299 never reaches the test of [send]: [urlopen]
    raises, with or without a logger, and no warning is logged. *)
Lemma send_http_error env s msg n status :
  network env n = Response status -> ~ 200 <= status < 300 ->
  send env s msg n =
  {| result := Raise (HTTPError status); emitted := [Urlopen msg]; requests := S n |}.
Proof.
  intros Hn Hs. unfold send. rewrite bind_run. unfold urlopen.
  cbn [result emitted requests]. rewrite Hn.
  destruct ((200 <=? status) && (status <? 300)) eqn:H; [|reflexivity].
  apply andb_prop in H as [Hlo Hhi].
  apply Z.leb_le in Hlo. apply Z.ltb_lt in Hhi. lia.
Qed.

(** C9, as the code has it. [SlackSender.send] makes one request.  A
    response with status 200 is no failure.  A response with another
    status that [urlopen] returns (201..299) is a delivery failure: with a
    logger attached a warning is logged and [send] returns, without one a
    [RuntimeWarning] is raised to the caller.  No failure is dropped
    silently: an attempt that does not get a 200 response logs a warning or
    raises to the caller. *)
Theorem send_outcome env s msg n :
  let r := send env s msg n in
  deliveries (emitted r) = [msg] /\
  (network env n = Response 200 ->
     result r = Return tt /\ emitted r = [Urlopen msg]) /\
  (forall status, network env n = Response status -> 200 < status < 300 ->
     logger s = true ->
     result r = Return tt /\
     emitted r = [Urlopen msg; Log (Warning (SendingFailed msg))]) /\
  (forall status, network env n = Response status -> 200 < status < 300 ->
     logger s = false ->
     result r = Raise (RuntimeWarning (SendingFailed msg)) /\
     emitted r = [Urlopen msg]) /\
  (network env n <> Response 200 ->
     warnings (emitted r) <> [] \/ exists e, result r = Raise e).
Proof.
  cbv zeta. split; [apply send_deliveries|].
  unfold send. rewrite bind_run. unfold urlopen. cbn [result emitted requests].
  split; [|split; [|split]].
  - intros ->. auto.
  - intros status -> Hs Hl. rewrite within_2xx by lia.
    replace (status =? 200) with false by (symmetry; apply Z.eqb_neq; lia).
    rewrite Hl. auto.
  - intros status -> Hs Hl. rewrite within_2xx by lia.
    replace (status =? 200) with false by (symmetry; apply Z.eqb_neq; lia).
    rewrite Hl. auto.
  - intros Hn. destruct (network env n) as [status|]; [|right; eauto].
    destruct ((200 <=? status) && (status <? 300)); [|right; eauto].
    destruct (status =? 200) eqn:H200.
    + apply Z.eqb_eq in H200. subst. contradiction.
    + destruct (logger s); [left; discriminate | right; eauto].
Qed.

(** The status 204 is a 2xx status, and [send] treats it as a failure: a
    warning with a logger attached, a [RuntimeWarning] without. *)
Lemma status_204_is_a_failure :
  let msg := construct_message (answering 204) NoCommunication in
  200 <= 204 < 300 /\
  warnings (emitted (send (answering 204) slack msg 0%nat)) = [SendingFailed msg] /\
  result (send (answering 204) slack_without_logger msg 0%nat) =
  Raise (RuntimeWarning (SendingFailed msg)).
Proof. cbv zeta. split; [lia|]. split; vm_compute; reflexivity. Qed.

(** ** The sequences of the specification *)

(** Power 2, then 0.5, then 0.375 with the delimiter 1: one message, on
    the second pass. *)
Example power_sequence :
  map notices
    (passes (answering 200) (StateMonitor_init default_power_delim None)
       [reading (float_lit 2 0) (float_lit 1 0) (VInt 0) (VInt 5);
        reading (float_lit 1 (-1)) (float_lit 1 0) (VInt 0) (VInt 5);
        reading (float_lit 3 (-3)) (float_lit 1 0) (VInt 0) (VInt 5)] 0) =
  [[]; [PowerHasDropped (float_lit 2 0) (float_lit 1 (-1))]; []].
Proof. vm_compute. reflexivity. Qed.

(** Ping 0, 0, 1, 1, 0: one message, on the pass from 0 to 1. *)
Example ping_sequence :
  map notices
    (passes (answering 200) (StateMonitor_init default_power_delim None)
       (map (fun ping => reading (float_lit 2 0) (float_lit 1 0) (VInt ping) (VInt 5))
            [0; 0; 1; 1; 0]) 0) =
  [[]; []; [NoCommunication]; []; []].
Proof. vm_compute. reflexivity. Qed.

(** LED codes 5, 12, 12, 13, 5, 14. *)
Example led_sequence :
  map notices
    (passes (answering 200) (StateMonitor_init default_power_delim None)
       (map (fun led => reading (float_lit 2 0) (float_lit 1 0) (VInt 0) (VInt led))
            [5; 12; 12; 13; 5; 14]) 0) =
  [[]; [CriticalFailure (VInt 12)]; []; [CriticalFailure (VInt 13)]; [];
   [CriticalFailure (VInt 14)]].
Proof. vm_compute. reflexivity. Qed.

(** * Further properties of the plugin *)

Section Passes.

Variable env : environment.

(** ** The shape of a pass *)

Lemma execute_seeded self input_data n :
  execute env self input_data n = execute env (seeded self input_data) input_data n.
Proof.
  unfold execute, seeded.
  destruct (_previous_data self) eqn:H; [rewrite H; reflexivity|].
  destruct input_data; reflexivity.
Qed.

Lemma seeded_previous self cur :
  exists prev, _previous_data (seeded self (Some cur)) = Some prev /\
               (_previous_data self = None -> prev = cur) /\
               (forall p, _previous_data self = Some p -> prev = p).
Proof.
  unfold seeded. destruct (_previous_data self) as [p|] eqn:H.
  - exists p. rewrite H. repeat split; congruence.
  - exists cur. repeat split; congruence.
Qed.

Lemma seeded_sender self input_data : sender (seeded self input_data) = sender self.
Proof. unfold seeded. destruct (_previous_data self); reflexivity. Qed.

Lemma seeded_power_delim self input_data :
  power_delim (seeded self input_data) = power_delim self.
Proof. unfold seeded. destruct (_previous_data self); reflexivity. Qed.

(** A property of effect lists that holds of what each block emits and of
    the error report, and is kept by concatenation, holds of every pass. *)
Lemma pass_effects_ind (P : list effect -> Prop) self input_data n :
  P [] ->
  (forall l l', P l -> P l' -> P (l ++ l')) ->
  (forall e cur prev, P (error_report e cur prev)) ->
  P [Log (Error_evaluating TypeError); Log Info_error_details] ->
  (forall self' k, sender self' = sender self ->
     P (emitted (power_drops env self' input_data k))) ->
  (forall self' k, sender self' = sender self ->
     P (emitted (sensor_communication env self' input_data k))) ->
  (forall self' k, sender self' = sender self ->
     P (emitted (led_state env self' input_data k))) ->
  P (emitted (snd (execute env self input_data n))).
Proof.
  intros Hnil Happ Hrep Hnone H1 H2 H3.
  destruct input_data as [cur|].
  2:{ rewrite (proj1 (execute_None env self n)). exact Hnone. }
  rewrite execute_seeded.
  destruct (seeded_previous self cur) as (prev & Hprev & _).
  rewrite (execute_baselined env _ cur prev n Hprev). cbn [snd emitted].
  rewrite (try_statement_emitted env _ cur prev n Hprev). cbv zeta.
  pose proof (seeded_sender self (Some cur)) as Hs.
  apply Happ; [apply H1; exact Hs|].
  destruct (result (power_drops env (seeded self (Some cur)) (Some cur) n)); [|apply Hrep].
  apply Happ; [apply H2; exact Hs|].
  destruct (result (sensor_communication env (seeded self (Some cur)) (Some cur) _));
    [|apply Hrep].
  apply Happ; [apply H3; exact Hs|].
  destruct (result (led_state env (seeded self (Some cur)) (Some cur) _));
    [exact Hnil | apply Hrep].
Qed.

(** ** Logged messages and requests *)



(** X1. In every pass, whatever the input, the requests made are exactly
    the logged rule messages, each wrapped by [construct_message], in the
    same order, when a sender is configured; without a sender no request is
    made at all. *)
Theorem every_notice_is_sent_once self input_data n :
  let l := emitted (snd (execute env self input_data n)) in
  deliveries l =
  match sender self with
  | Some _ => map (construct_message env) (notices l)
  | None => []
  end.
Proof.
  cbv zeta.
  apply (pass_effects_ind
           (fun l => deliveries l =
                     match sender self with
                     | Some _ => map (construct_message env) (notices l)
                     | None => []
                     end)).
  - destruct (sender self); reflexivity.
  - intros l l' H H'. rewrite deliveries_app, notices_app, H, H'.
    destruct (sender self); [rewrite map_app|]; reflexivity.
  - intros. destruct (sender self); reflexivity.
  - destruct (sender self); reflexivity.
  - intros self' k Hs.
    destruct (power_drops_cases env self' input_data k)
      as [[-> _]|(? & ? & ? & ? & _ & _ & _ & _ & _ & ->)].
    + destruct (sender self); reflexivity.
    + rewrite fired_deliveries, fired_notices, Hs. destruct (sender self); reflexivity.
  - intros self' k Hs.
    destruct (sensor_communication_cases env self' input_data k)
      as [[-> _]|(? & ? & _ & _ & _ & _ & ->)].
    + destruct (sender self); reflexivity.
    + rewrite fired_deliveries, fired_notices, Hs. destruct (sender self); reflexivity.
  - intros self' k Hs.
    destruct (led_state_cases env self' input_data k)
      as [[-> _]|(? & ? & _ & _ & _ & _ & ->)].
    + destruct (sender self); reflexivity.
    + rewrite fired_deliveries, fired_notices, Hs. destruct (sender self); reflexivity.
Qed.

(** X2. A pass logs at most one message per rule, in the fixed order power
    drop, no communication, critical failure, whatever the input and the
    state of the monitor. *)
Theorem one_message_per_rule self input_data n :
  exists a b c,
    notices (emitted (snd (execute env self input_data n))) = a ++ b ++ c /\
    (a = [] \/ exists power_pre power_now, a = [PowerHasDropped power_pre power_now]) /\
    (b = [] \/ b = [NoCommunication]) /\
    (c = [] \/ exists state_now, c = [CriticalFailure state_now]).
Proof.
  assert (Hnil : exists a b c : list text,
             @nil text = a ++ b ++ c /\
             (a = [] \/ exists x y, a = [PowerHasDropped x y]) /\
             (b = [] \/ b = [NoCommunication]) /\
             (c = [] \/ exists v, c = [CriticalFailure v]))
    by (exists [], [], []; repeat split; auto).
  destruct input_data as [cur|].
  2:{ rewrite (proj1 (execute_None env self n)). exact Hnil. }
  rewrite execute_seeded.
  destruct (seeded_previous self cur) as (prev & Hprev & _).
  set (self' := seeded self (Some cur)) in *.
  rewrite (execute_baselined env self' cur prev n Hprev). cbn [snd emitted].
  rewrite (try_statement_notices env self' cur prev n Hprev). cbv zeta.
  set (r1 := power_drops env self' (Some cur) n).
  set (r2 := sensor_communication env self' (Some cur) (requests r1)).
  set (r3 := led_state env self' (Some cur) (requests r2)).
  exists (notices (emitted r1)),
         (match result r1 with Return _ => notices (emitted r2) | Raise _ => [] end),
         (match result r1 with
          | Return _ => match result r2 with
                        | Return _ => notices (emitted r3)
                        | Raise _ => []
                        end
          | Raise _ => []
          end).
  split; [destruct (result r1); reflexivity|].
  split; [apply power_drops_notices_shape|].
  split.
  - destruct (result r1); [apply sensor_communication_notices_shape | left; reflexivity].
  - destruct (result r1); [|left; reflexivity].
    destruct (result r2); [apply led_state_notices_shape | left; reflexivity].
Qed.

(** ** Rejected deliveries *)



(** ** The same sample twice *)

(** X4. A sample that is fed again right after a pass over it never
    notifies: whatever the first pass did, the second pass over the same
    sample logs no rule message and makes no request. *)
Theorem repeated_sample_is_silent self s n n' :
  let self' := fst (execute env self (Some s) n) in
  notices (emitted (snd (execute env self' (Some s) n'))) = [] /\
  deliveries (emitted (snd (execute env self' (Some s) n'))) = [].
Proof.
  cbv zeta.
  assert (Hstored : _previous_data (fst (execute env self (Some s) n)) = Some s).
  { rewrite execute_seeded.
    destruct (seeded_previous self s) as (prev & Hprev & _).
    rewrite (execute_baselined env _ s prev n Hprev). reflexivity. }
  set (self' := fst (execute env self (Some s) n)) in *.
  rewrite (execute_baselined env self' s s n' Hstored). cbn [snd emitted].
  rewrite (try_statement_emitted env self' s s n' Hstored). cbv zeta.
  rewrite (same_sample_power_drops env self' s n' Hstored).
  rewrite (same_sample_sensor_communication env self' s _ Hstored).
  rewrite (same_sample_led_state env self' s _ Hstored).
  split; simpl;
    repeat match goal with |- context [match ?r with _ => _ end] => destruct r end;
    reflexivity.
Qed.

(** ** A pass in which nothing raises *)








(** ** A power that cannot be used *)

Lemma py_lt_None p : py_lt p VNone = Raise TypeError.
Proof. destruct p; reflexivity. Qed.

Lemma py_lt_nan threshold : py_lt (VFloat S754_nan) threshold <> Return true.
Proof. destruct threshold as [| | |[]]; discriminate. Qed.

Lemma py_gt_nan threshold : py_gt (VFloat S754_nan) threshold <> Return true.
Proof. destruct threshold as [| | |[]]; discriminate. Qed.

(** When the block returns, both powers were computed and the first
    comparison was defined. *)
Lemma power_drops_returns_inv self cur prev u n :
  _previous_data self = Some prev ->
  result (power_drops env self (Some cur) n) = Return u ->
  exists p_now p_pre lower,
    power cur = Return p_now /\ power prev = Return p_pre /\
    py_lt p_now (power_delim self) = Return lower.
Proof.
  intros Hprev. unfold power_drops.
  rewrite now_then_run, Hprev.
  destruct (subscript_value (Some cur) "adc_vl_f") as [ln|] eqn:Hln; [|discriminate].
  destruct (subscript_value (Some prev) "adc_vl_f") as [lp|] eqn:Hlp; [|discriminate].
  rewrite now_then_run, Hprev.
  destruct (subscript_value (Some cur) "adc_il_f") as [cn|] eqn:Hcn; [|discriminate].
  destruct (subscript_value (Some prev) "adc_il_f") as [cp|] eqn:Hcp; [|discriminate].
  rewrite bind_lift.
  destruct (py_mul ln cn) as [p_now|] eqn:Hmn; [|discriminate].
  rewrite bind_lift.
  destruct (py_mul lp cp) as [p_pre|] eqn:Hmp; [|discriminate].
  rewrite bind_lift.
  destruct (py_lt p_now (power_delim self)) as [lower|] eqn:Hlt; [|discriminate].
  intros _. exists p_now, p_pre, lower.
  unfold power. rewrite Hln, Hcn, Hlp, Hcp. cbn [bind_outcome].
  rewrite Hmn, Hmp. auto.
Qed.

(** A block that neither returns nor fires leaves the pass to the
    handler at once. *)
Lemma pass_stopped_at_power_drops self cur prev n :
  _previous_data self = Some prev ->
  (forall u, result (power_drops env self (Some cur) n) <> Return u) ->
  emitted (power_drops env self (Some cur) n) = [] ->
  exists e,
    execute env self (Some cur) n =
    (set_previous_data self (Some cur),
     {| result := Return (Some cur);
        emitted := error_report e cur prev;
        requests := n |}).
Proof.
  intros Hprev Hret Hsilent.
  destruct (result (power_drops env self (Some cur) n)) as [u|e] eqn:H1;
    [destruct (Hret u eq_refl)|].
  exists e. rewrite (execute_baselined env self cur prev n Hprev).
  rewrite (try_statement_power_raises env self cur prev n Hprev e H1).
  cbn [result emitted requests]. rewrite Hsilent.
  destruct (power_drops_cases env self (Some cur) n)
    as [[_ ->]|(? & ? & ? & ? & _ & _ & _ & _ & _ & E)]; [reflexivity|].
  rewrite E in Hsilent. discriminate.
Qed.

Lemma pass_without_power self cur prev e n :
  _previous_data self = Some prev ->
  power cur = Raise e \/ power prev = Raise e ->
  exists e',
    execute env self (Some cur) n =
    (set_previous_data self (Some cur),
     {| result := Return (Some cur);
        emitted := error_report e' cur prev;
        requests := n |}).
Proof.
  intros Hprev Hbad. apply (pass_stopped_at_power_drops self cur prev n Hprev).
  - intros u Hu.
    destruct (power_drops_returns_inv self cur prev u n Hprev Hu)
      as (p_now & p_pre & lower & Hnow & Hpre & _).
    destruct Hbad as [H|H]; congruence.
  - destruct (power_drops_cases env self (Some cur) n)
      as [[H _]|(cur' & prev' & p_now & p_pre & Hc & Hp & Hnow & Hpre & _)]; [exact H|].
    exfalso. injection Hc as <-. rewrite Hprev in Hp. injection Hp as <-.
    destruct Hbad as [H|H]; congruence.
Qed.

(** X6. A sample whose power cannot be computed (a field of the power rule
    missing, a [None] value, an int beyond the float range times a float)
    costs two passes: the pass over it and the pass after it log the error
    report and nothing else, whatever the ping and LED values are and
    whatever the next sample is. *)
Theorem unusable_power_silences_two_passes self prev bad next e n :
  _previous_data self = Some prev ->
  power bad = Raise e ->
  exists e1 e2,
    passes env self [bad; next] n =
    [error_report e1 bad prev; error_report e2 next bad].
Proof.
  intros Hprev Hbad.
  destruct (pass_without_power self bad prev e n Hprev (or_introl Hbad)) as (e1 & E1).
  destruct (pass_without_power (set_previous_data self (Some bad)) next bad e n
              eq_refl (or_intror Hbad)) as (e2 & E2).
  exists e1, e2. cbn [passes]. rewrite E1. cbn [emitted requests]. rewrite E2.
  reflexivity.
Qed.

(** X7. A delimiter that is not a number ([power_delim=None]) disables the
    three rules: every pass over a mapping ends in the handler at the first
    comparison at the latest, so that its effects are the error report
    alone. *)
Theorem none_delimiter_disables_the_rules self cur n :
  power_delim self = VNone ->
  exists e prev,
    emitted (snd (execute env self (Some cur) n)) = error_report e cur prev.
Proof.
  intros Hdelim. rewrite execute_seeded.
  destruct (seeded_previous self cur) as (prev & Hprev & _).
  pose proof (seeded_power_delim self (Some cur)) as Hd. rewrite Hdelim in Hd.
  set (self' := seeded self (Some cur)) in *.
  destruct (pass_stopped_at_power_drops self' cur prev n Hprev) as (e & E).
  - intros u Hu.
    destruct (power_drops_returns_inv self' cur prev u n Hprev Hu)
      as (p_now & p_pre & lower & _ & _ & Hlt).
    rewrite Hd, py_lt_None in Hlt. discriminate.
  - destruct (power_drops_cases env self' (Some cur) n)
      as [[H _]|(? & ? & p_now & ? & _ & _ & _ & _ & [Hlt _] & _)]; [exact H|].
    rewrite Hd, py_lt_None in Hlt. discriminate.
  - exists e, prev. rewrite E. reflexivity.
Qed.

(** X8. A NaN power hides a drop: when the power of a sample is NaN, no
    power-drop message is logged in the pass over it nor in the pass after
    it, whatever the powers before and after are. *)
Theorem nan_power_hides_a_drop self prev gap next n :
  _previous_data self = Some prev ->
  power gap = Return (VFloat S754_nan) ->
  map power_drop_count (passes env self [gap; next] n) = [0; 0]%nat.
Proof.
  intros Hprev Hnan.
  assert (H1 : emitted (power_drops env self (Some gap) n) = []).
  { destruct (power_drops_cases env self (Some gap) n)
      as [[H _]|(cur' & ? & p_now & ? & Hc & _ & Hnow & _ & [Hlt _] & _)]; [exact H|].
    exfalso. injection Hc as <-. rewrite Hnan in Hnow. injection Hnow as <-.
    exact (py_lt_nan _ Hlt). }
  set (self' := set_previous_data self (Some gap)).
  assert (H2 : forall k, emitted (power_drops env self' (Some next) k) = []).
  { intros k.
    destruct (power_drops_cases env self' (Some next) k)
      as [[H _]|(? & prev' & ? & p_pre & _ & Hp & _ & Hpre & [_ Hgt] & _)]; [exact H|].
    exfalso. injection Hp as <-. rewrite Hnan in Hpre. injection Hpre as <-.
    exact (py_gt_nan _ Hgt). }
  cbn [passes].
  pose proof (pass_power_drop_count env self gap prev n Hprev) as C1.
  rewrite H1 in C1.
  rewrite (execute_baselined env self gap prev n Hprev) in *.
  cbn [snd emitted requests] in *. fold self'.
  set (k := requests (try_statement env self (Some gap) n)).
  pose proof (pass_power_drop_count env self' next gap k eq_refl) as C2.
  rewrite H2 in C2.
  rewrite (execute_baselined env self' next gap k eq_refl) in *.
  cbn [snd emitted requests map] in *. rewrite C1, C2. reflexivity.
Qed.

End Passes.

(** ** The name of the sensor *)






(** ** Instances *)



(** A sample without the adc fields between a power of 2 and a power of
    0.5, with the ping and the LED code changing as well. *)
Lemma unusable_power_silences_two_passes_witness :
  let prev := reading (float_lit 2 0) (float_lit 1 0) (VInt 0) (VInt 5) in
  let bad := sample_of [("ping", VInt 1); ("led_state", VInt 12)] in
  let next := reading (float_lit 1 (-1)) (float_lit 1 0) (VInt 1) (VInt 13) in
  exists e1 e2,
    passes (answering 200) (monitor_after (Some slack) prev) [bad; next] 0 =
    [error_report e1 bad prev; error_report e2 next bad].
Proof.
  exact (unusable_power_silences_two_passes (answering 200)
           (monitor_after (Some slack)
              (reading (float_lit 2 0) (float_lit 1 0) (VInt 0) (VInt 5)))
           (reading (float_lit 2 0) (float_lit 1 0) (VInt 0) (VInt 5))
           (sample_of [("ping", VInt 1); ("led_state", VInt 12)])
           (reading (float_lit 1 (-1)) (float_lit 1 0) (VInt 1) (VInt 13))
           (KeyError "adc_vl_f") 0%nat eq_refl eq_refl).
Defined.

(** A monitor configured with [power_delim=None], on its first pass. *)
Lemma none_delimiter_disables_the_rules_witness :
  let cur := reading (float_lit 1 (-1)) (float_lit 1 0) (VInt 1) (VInt 12) in
  exists e prev,
    emitted (snd (execute (answering 200) (StateMonitor_init VNone (Some slack))
                    (Some cur) 0)) = error_report e cur prev.
Proof.
  exact (none_delimiter_disables_the_rules (answering 200)
           (StateMonitor_init VNone (Some slack))
           (reading (float_lit 1 (-1)) (float_lit 1 0) (VInt 1) (VInt 12))
           0%nat eq_refl).
Defined.

(** The load voltage reads NaN between a power of 2 and a power of 0.5. *)
Lemma nan_power_hides_a_drop_witness :
  let prev := reading (float_lit 2 0) (float_lit 1 0) (VInt 0) (VInt 5) in
  let gap := reading (VFloat S754_nan) (float_lit 1 0) (VInt 0) (VInt 5) in
  let next := reading (float_lit 1 (-1)) (float_lit 1 0) (VInt 0) (VInt 5) in
  map power_drop_count
      (passes (answering 200) (monitor_after (Some slack) prev) [gap; next] 0) =
  [0; 0]%nat.
Proof.
  exact (nan_power_hides_a_drop (answering 200)
           (monitor_after (Some slack)
              (reading (float_lit 2 0) (float_lit 1 0) (VInt 0) (VInt 5)))
           (reading (float_lit 2 0) (float_lit 1 0) (VInt 0) (VInt 5))
           (reading (VFloat S754_nan) (float_lit 1 0) (VInt 0) (VInt 5))
           (reading (float_lit 1 (-1)) (float_lit 1 0) (VInt 0) (VInt 5))
           0%nat eq_refl eq_refl).
Defined.

